(** * E3 engine: garbage collected handles and the concrete factory

    A shallow embedding of [Code/eCore/Include/Memory/GarbageCollection.h]:
    the counter record [GCCounter], the owning handle [GCUniquePtr], the
    scoped handle [GCThisPtr], the weak handle [GCWeakPtr] and the
    thread-safe [GCConcreteFactory].

    C++ objects live in an explicit store (the [World]); every member
    function becomes a computation in a state-and-fault monad over that
    store.  Handles are one-word values ([mpCounter]) and are passed and
    returned explicitly; the counter records they alias are shared through
    the store.  The embedding is sequential: the mutexes of the factory
    and the atomicity of the counter are not represented. *)

From stdpp Require Import gmap list.

Local Open Scope Z_scope.

(** ** Pointers

    A raw pointer is [None] for [nullptr] and [Some a] for the address
    [a]. *)

Abbreviation pointer := (option nat).
Abbreviation nullptr := (@None nat).

(** ** Faults *)

Inductive Assertion :=
  | ASSERT_PTR
  | ASSERT_SAFE_CAST
  | ASSERT_DESTROY_PTR
  | GARBAGE_COLLECTION_REFERENCE_INVALID
  | GARBAGE_COLLECTION_REFERENCE_ASSIGNMENT_INVALID
  | MEMORY_FACTORY_NOT_OWNED_OBJECT
  | MEMORY_FACTORY_NOT_EMPTY_CONCRETE_TYPE_FACTORY.

Inductive Fault :=
  | AssertionFailed (a : Assertion)
  | NullDereference
  | DanglingPointer.

Inductive Result (A : Type) :=
  | Ok (a : A)
  | Fatal (f : Fault).

Arguments Ok {A} a.
Arguments Fatal {A} f.

(** ** Build configuration

    The header tests [E_DEBUG] itself ([GCGenericFactory::CleanUp]). *)

Class BuildConfig := { E_DEBUG : bool }.

(** ** Data model *)

(** [struct GCCounter]: [count], [ptr], [pCollector]. *)
Record GCCounter := mkGCCounter {
  count : Z;
  ptr : pointer;
  pCollector : pointer
}.

(** [GCCounter::GCCounter()]. *)
Definition GCCounter_ctor : GCCounter :=
  {| count := 0; ptr := nullptr; pCollector := nullptr |}.

Record GCUniquePtr := mkGCUniquePtr { unique_mpCounter : pointer }.
Record GCThisPtr := mkGCThisPtr { this_mpCounter : pointer }.
Record GCWeakPtr := mkGCWeakPtr { weak_mpCounter : pointer }.

(** [class GCConcreteFactory]: the mutexes are left out. *)
Record GCConcreteFactory := mkGCConcreteFactory {
  mpAllocator : pointer;
  mLiveList : list GCUniquePtr;
  mCleaningUp : bool
}.

(** Calls that cross the boundary of the header, in the order they
    happen. *)
Inductive Event :=
  | EvAllocate (allocator : pointer) (result : pointer)
  | EvDeallocate (allocator : pointer) (object : pointer)
  | EvCollect (collector : nat) (object : pointer)
  | EvDestroy (collector : nat) (object : pointer).

(** The store: counter records ([E_NEW(Counter)] / [E_DELETE(mpCounter)]),
    the factory objects that serve as collectors, the answers the allocator
    collaborator will give to the coming requests, and the trace. *)
Record World := mkWorld {
  counters : gmap nat GCCounter;
  factories : gmap nat GCConcreteFactory;
  allocator : list pointer;
  trace : list Event
}.

Definition set_counters (f : gmap nat GCCounter → gmap nat GCCounter) (w : World) : World :=
  {| counters := f (counters w); factories := factories w;
     allocator := allocator w; trace := trace w |}.

Definition set_factories (f : gmap nat GCConcreteFactory → gmap nat GCConcreteFactory)
    (w : World) : World :=
  {| counters := counters w; factories := f (factories w);
     allocator := allocator w; trace := trace w |}.

Definition set_allocator (l : list pointer) (w : World) : World :=
  {| counters := counters w; factories := factories w;
     allocator := l; trace := trace w |}.

Definition log_event (e : Event) (w : World) : World :=
  {| counters := counters w; factories := factories w;
     allocator := allocator w; trace := trace w ++ [e] |}.

(** ** The monad *)

Definition M (A : Type) : Type := World → Result (A * World).

Definition ret {A} (a : A) : M A := fun w => Ok (a, w).

Definition bind {A B} (k : A → M B) (m : M A) : M B :=
  fun w => match m w with
           | Ok (a, w') => k a w'
           | Fatal f => Fatal f
           end.

#[global] Instance M_ret : MRet M := @ret.
#[global] Instance M_bind : MBind M := @bind.

Definition fault {A} (f : Fault) : M A := fun _ => Fatal f.

Definition modify_world (f : World → World) : M unit := fun w => Ok (tt, f w).

(** ** Absent collaborators *)

(** Modelled from the spec: the assertion macros [E_ASSERT], [E_ASSERT_PTR]
    and [E_ASSERT_MSG] (their header is not part of the sources).  A
    violated contract is "fatal in debug builds" and "checked defensively
    (debug-only)"; with [E_DEBUG] off the check is compiled out. *)
Definition E_ASSERT `{BuildConfig} (a : Assertion) (cond : bool) : M unit :=
  if E_DEBUG && negb cond then fault (AssertionFailed a) else ret tt.

(** Modelled from the spec: [E_ASSERT_ALWAYS] (header absent).  "Failing
    to find the object is a fatal contract violation", "otherwise
    not-found is fatal". *)
Definition E_ASSERT_ALWAYS {A} (a : Assertion) : M A :=
  fault (AssertionFailed a).

(** Modelled from the spec: [A32], the default [CounterType]
    ([Threads/Atomic.h] is absent): "referenceCount: integer (atomic)",
    taken as an unsigned 32-bit counter whose increment and decrement wrap
    around. *)
Definition A32_modulus : Z := 2 ^ 32.
Definition A32_incr (c : Z) : Z := (c + 1) mod A32_modulus.
Definition A32_decr (c : Z) : Z := (c - 1) mod A32_modulus.

(** Modelled from the spec: the allocator collaborator behind
    [E_NEW(T, 1, mpAllocator, tag)]: "give me raw storage for one T",
    which may return no memory.  The answers are read from the
    [allocator] field of the store; an exhausted list answers
    [nullptr]. *)
Definition next_allocation (w : World) : pointer :=
  match allocator w with
  | [] => nullptr
  | r :: _ => r
  end.

Definition E_NEW_T (pAllocator : pointer) : M pointer :=
  fun w => let r := next_allocation w in
           Ok (r, log_event (EvAllocate pAllocator r)
                    (set_allocator (tail (allocator w)) w)).

(** Modelled from the spec: [E_DELETE(ptr, 1, mpAllocator, tag)]:
    "reclaim storage for one T".  The destructor of [T] is taken to touch
    no handle. *)
Definition E_DELETE_T (pAllocator : pointer) (object : pointer) : M unit :=
  modify_world (log_event (EvDeallocate pAllocator object)).

(** Modelled from the spec: [SafeCast<T>] ([SafeCast.h] is absent).  Only
    one object type is represented, so the cast yields its argument and
    the surrounding [E_ASSERT] checks that it is not [nullptr]. *)
Definition SafeCast (p : pointer) : pointer := p.

(** Modelled from the spec: [Containers::List<Ptr>::RemoveFast]
    (the container header is absent): "removes it without preserving
    order".  The last element takes the place of the removed one.  The
    result is the removed element and the remaining list. *)
Definition List_RemoveFast {A} (l : list A) (i : nat) : option (A * list A) :=
  match l !! i, last l with
  | Some x, Some y =>
      let n := length l in
      Some (x, if decide (S i = n) then take i l else <[i := y]> (take (Nat.pred n) l))
  | _, _ => None
  end.

(** ** Access to counter records *)

(** [E_NEW(Counter)]: a default-constructed record at an unused address.
    The allocation of the record itself is taken to succeed. *)
Definition E_NEW_Counter : M nat :=
  fun w => let a := fresh (dom (counters w)) in
           Ok (a, set_counters <[a := GCCounter_ctor]> w).

(** Reading through [mpCounter->]. *)
Definition load_counter (p : pointer) : M GCCounter :=
  fun w => match p with
           | None => Fatal NullDereference
           | Some a => match counters w !! a with
                       | Some r => Ok (r, w)
                       | None => Fatal DanglingPointer
                       end
           end.

(** Writing a field through [mpCounter->]. *)
Definition update_counter (p : pointer) (f : GCCounter → GCCounter) : M unit :=
  r ← load_counter p;
  match p with
  | Some a => modify_world (set_counters <[a := f r]>)
  | None => fault NullDereference
  end.

(** [E_DELETE(mpCounter)]. *)
Definition E_DELETE_Counter (p : pointer) : M unit :=
  match p with
  | None => ret tt
  | Some a => load_counter p ;; modify_world (set_counters (delete a))
  end.

Definition set_count (c : Z) (r : GCCounter) : GCCounter :=
  {| count := c; ptr := ptr r; pCollector := pCollector r |}.
Definition set_ptr (p : pointer) (r : GCCounter) : GCCounter :=
  {| count := count r; ptr := p; pCollector := pCollector r |}.
Definition set_pCollector (c : pointer) (r : GCCounter) : GCCounter :=
  {| count := count r; ptr := ptr r; pCollector := c |}.

(** Access to a factory object through [this]. *)
Definition load_factory (this : nat) : M GCConcreteFactory :=
  fun w => match factories w !! this with
           | Some f => Ok (f, w)
           | None => Fatal DanglingPointer
           end.

Definition store_factory (this : nat) (f : GCConcreteFactory) : M unit :=
  modify_world (set_factories <[this := f]>).

Definition set_mLiveList (l : list GCUniquePtr) (f : GCConcreteFactory) : GCConcreteFactory :=
  {| mpAllocator := mpAllocator f; mLiveList := l; mCleaningUp := mCleaningUp f |}.
Definition set_mCleaningUp (b : bool) (f : GCConcreteFactory) : GCConcreteFactory :=
  {| mpAllocator := mpAllocator f; mLiveList := mLiveList f; mCleaningUp := b |}.
Definition set_mpAllocator (p : pointer) (f : GCConcreteFactory) : GCConcreteFactory :=
  {| mpAllocator := p; mLiveList := mLiveList f; mCleaningUp := mCleaningUp f |}.

(** ** IGarbageCollector, implemented by GCConcreteFactory

    [Collect] and [Destroy] are virtual: a call through [pCollector]
    reaches the factory object at that address, and is recorded in the
    trace.  [GCGenericFactory] has the same [Collect] and [CleanUp]; its
    [Create] and [Destroy] delegate to [GenericFactory], which is not part
    of the sources, so it is not represented. *)

(** [GCConcreteFactory<T>::Destroy]. *)
Definition GCConcreteFactory_Destroy `{BuildConfig} (this : nat) (p : pointer) : M unit :=
  f ← load_factory this;
  E_ASSERT ASSERT_DESTROY_PTR (bool_decide (p ≠ nullptr));;
  E_DELETE_T (mpAllocator f) p.

(** [pCollector->Destroy(ptr)]. *)
Definition IGarbageCollector_Destroy `{BuildConfig} (pCollector : pointer) (p : pointer)
    : M unit :=
  match pCollector with
  | None => fault NullDereference
  | Some c => modify_world (log_event (EvDestroy c p));; GCConcreteFactory_Destroy c p
  end.

(** ** GCUniquePtr *)

(** [GCUniquePtr::GCUniquePtr()]. *)
Definition GCUniquePtr_ctor : GCUniquePtr := mkGCUniquePtr nullptr.

(** [GCUniquePtr::Swap(const GCUniquePtr& other)]: the new values of
    [*this] and of [other]. *)
Definition GCUniquePtr_Swap (this other : GCUniquePtr) : GCUniquePtr * GCUniquePtr :=
  let tmpManagedPtr := unique_mpCounter this in
  (mkGCUniquePtr (unique_mpCounter other), mkGCUniquePtr tmpManagedPtr).

(** [GCUniquePtr::GCUniquePtr(const GCUniquePtr& other)]: the new handle
    and the new value of [other]. *)
Definition GCUniquePtr_ctor_copy (other : GCUniquePtr) : GCUniquePtr * GCUniquePtr :=
  GCUniquePtr_Swap (mkGCUniquePtr nullptr) other.

(** [GCUniquePtr::GCUniquePtr(T* ptr, IGarbageCollector<T>* pCollector)]. *)
Definition GCUniquePtr_ctor_raw `{BuildConfig} (p : pointer) (collector : pointer)
    : M GCUniquePtr :=
  E_ASSERT ASSERT_PTR (bool_decide (p ≠ nullptr));;
  E_ASSERT ASSERT_PTR (bool_decide (collector ≠ nullptr));;
  a ← E_NEW_Counter;
  update_counter (Some a) (set_ptr p);;
  update_counter (Some a) (set_pCollector collector);;
  mret (mkGCUniquePtr (Some a)).

(** [GCUniquePtr::operator=(const GCUniquePtr& other)]: the new values of
    [*this] and of [other]. *)
Definition GCUniquePtr_op_assign (this other : GCUniquePtr) : GCUniquePtr * GCUniquePtr :=
  GCUniquePtr_Swap this other.

(** [GCUniquePtr::operator->]. *)
Definition GCUniquePtr_op_arrow `{BuildConfig} (this : GCUniquePtr) : M pointer :=
  valid ← match unique_mpCounter this with
          | None => mret false
          | Some a => r ← load_counter (Some a); mret (bool_decide (ptr r ≠ nullptr))
          end;
  E_ASSERT GARBAGE_COLLECTION_REFERENCE_INVALID valid;;
  r ← load_counter (unique_mpCounter this);
  mret (ptr r).

(** [GCUniquePtr::operator*]: the object the returned reference is bound
    to.  The body checks nothing but the assertion: with the assertion
    compiled out and a null [mpCounter->ptr], the reference is bound through
    the null pointer and the call returns. *)
Definition GCUniquePtr_op_deref `{BuildConfig} (this : GCUniquePtr) : M pointer :=
  valid ← match unique_mpCounter this with
          | None => mret false
          | Some a => r ← load_counter (Some a); mret (bool_decide (ptr r ≠ nullptr))
          end;
  E_ASSERT GARBAGE_COLLECTION_REFERENCE_INVALID valid;;
  r ← load_counter (unique_mpCounter this);
  mret (ptr r).

(** [GCUniquePtr::operator==(const GCUniquePtr& other)]. *)
Definition GCUniquePtr_op_eq (this other : GCUniquePtr) : M bool :=
  if decide (unique_mpCounter this = unique_mpCounter other) then
    r1 ← load_counter (unique_mpCounter this);
    r2 ← load_counter (unique_mpCounter other);
    mret (bool_decide (ptr r1 = ptr r2))
  else mret false.

(** [GCUniquePtr::operator==(const T* ptr)]. *)
Definition GCUniquePtr_op_eq_raw (this : GCUniquePtr) (p : pointer) : M bool :=
  match unique_mpCounter this with
  | None => mret (bool_decide (p = nullptr))
  | Some a => r ← load_counter (Some a); mret (bool_decide (ptr r = p))
  end.

(** [GCUniquePtr::operator!=(const GCUniquePtr& other)]. *)
Definition GCUniquePtr_op_ne (this other : GCUniquePtr) : M bool :=
  if decide (unique_mpCounter this = unique_mpCounter other) then
    r1 ← load_counter (unique_mpCounter this);
    r2 ← load_counter (unique_mpCounter other);
    mret (bool_decide (ptr r1 ≠ ptr r2))
  else mret true.

(** [GCUniquePtr::operator!=(const T* ptr)]. *)
Definition GCUniquePtr_op_ne_raw (this : GCUniquePtr) (p : pointer) : M bool :=
  match unique_mpCounter this with
  | None => mret (bool_decide (p ≠ nullptr))
  | Some a => r ← load_counter (Some a); mret (bool_decide (ptr r ≠ p))
  end.

(** [GCUniquePtr::Reset]: the new value of [*this]. *)
Definition GCUniquePtr_Reset `{BuildConfig} (this : GCUniquePtr) : M GCUniquePtr :=
  match unique_mpCounter this with
  | Some a =>
      r ← load_counter (Some a);
      IGarbageCollector_Destroy (pCollector r) (ptr r);;
      r' ← load_counter (Some a);
      (if decide (count r' = 0)
       then E_DELETE_Counter (Some a)
       else update_counter (Some a) (set_ptr nullptr));;
      mret (mkGCUniquePtr nullptr)
  | None => mret (mkGCUniquePtr nullptr)
  end.

(** [GCUniquePtr::~GCUniquePtr]. *)
Definition GCUniquePtr_dtor `{BuildConfig} (this : GCUniquePtr) : M unit :=
  GCUniquePtr_Reset this;; mret tt.

(** ** GCThisPtr *)

(** [GCThisPtr::GCThisPtr(T* ptr)]. *)
Definition GCThisPtr_ctor (p : pointer) : M GCThisPtr :=
  a ← E_NEW_Counter;
  update_counter (Some a) (set_ptr p);;
  mret (mkGCThisPtr (Some a)).

(** [GCThisPtr::~GCThisPtr]. *)
Definition GCThisPtr_dtor (this : GCThisPtr) : M unit :=
  r ← load_counter (this_mpCounter this);
  if decide (count r = 0)
  then E_DELETE_Counter (this_mpCounter this)
  else update_counter (this_mpCounter this) (set_ptr nullptr).

(** [GCThisPtr::operator==(const T* ptr)]. *)
Definition GCThisPtr_op_eq_raw (this : GCThisPtr) (p : pointer) : M bool :=
  r ← load_counter (this_mpCounter this); mret (bool_decide (ptr r = p)).

(** [GCThisPtr::operator!=(const T* ptr)]. *)
Definition GCThisPtr_op_ne_raw (this : GCThisPtr) (p : pointer) : M bool :=
  r ← load_counter (this_mpCounter this); mret (bool_decide (ptr r ≠ p)).

(** ** GCConcreteFactory *)

(** [GCConcreteFactory::GCConcreteFactory()]; the argument is
    [Memory::Global::GetAllocator()]. *)
Definition GCConcreteFactory_ctor (globalAllocator : pointer) : GCConcreteFactory :=
  {| mpAllocator := globalAllocator; mLiveList := []; mCleaningUp := false |}.

(** [GCConcreteFactory::GetAllocator]. *)
Definition GCConcreteFactory_GetAllocator (this : nat) : M pointer :=
  f ← load_factory this; mret (mpAllocator f).

(** [GCConcreteFactory::GetLiveCount]. *)
Definition GCConcreteFactory_GetLiveCount (this : nat) : M nat :=
  f ← load_factory this; mret (length (mLiveList f)).

(** [GCConcreteFactory::SetAllocator]. *)
Definition GCConcreteFactory_SetAllocator (this : nat) (p : pointer) : M unit :=
  f ← load_factory this; store_factory this (set_mpAllocator p f).

(** [mLiveList.RemoveFast(it)] with [it] at index [i]; the element taken
    out of the list is destroyed. *)
Definition mLiveList_RemoveFast `{BuildConfig} (this : nat) (i : nat) : M unit :=
  f ← load_factory this;
  match List_RemoveFast (mLiveList f) i with
  | Some (removed, rest) =>
      store_factory this (set_mLiveList rest f);;
      GCUniquePtr_dtor removed
  | None => fault DanglingPointer
  end.

(** The loop of [Collect]: [its] is what is left to visit, [i] the index
    of its head in [mLiveList]. *)
Fixpoint Collect_loop `{BuildConfig} (this : nat) (p : pointer)
    (its : list GCUniquePtr) (i : nat) : M unit :=
  match its with
  | [] => E_ASSERT_ALWAYS MEMORY_FACTORY_NOT_OWNED_OBJECT
  | it :: its' =>
      found ← GCUniquePtr_op_eq_raw it p;
      if found : bool then mLiveList_RemoveFast this i
      else Collect_loop this p its' (S i)
  end.

(** [GCConcreteFactory<T>::Collect]. *)
Definition GCConcreteFactory_Collect `{BuildConfig} (this : nat) (p : pointer) : M unit :=
  f ← load_factory this;
  if mCleaningUp f then mret tt
  else Collect_loop this p (mLiveList f) 0%nat.

(** [pCollector->Collect(ptr)]. *)
Definition IGarbageCollector_Collect `{BuildConfig} (pCollector : pointer) (p : pointer)
    : M unit :=
  match pCollector with
  | None => fault NullDereference
  | Some c => modify_world (log_event (EvCollect c p));; GCConcreteFactory_Collect c p
  end.

(** [mLiveList.Clear()]: every element is destroyed. *)
Fixpoint mLiveList_Clear_elements `{BuildConfig} (l : list GCUniquePtr) : M unit :=
  match l with
  | [] => mret tt
  | u :: l' => GCUniquePtr_dtor u;; mLiveList_Clear_elements l'
  end.


(** [GCConcreteFactory<T>::CleanUp]. *)
Definition GCConcreteFactory_CleanUp `{BuildConfig} (this : nat) : M unit :=
  f ← load_factory this;
  store_factory this (set_mCleaningUp true f);;
  mLiveList_Clear_elements (mLiveList f);;
  f ← load_factory this;
  store_factory this (set_mLiveList [] f);;
  f ← load_factory this;
  store_factory this (set_mCleaningUp false f).

(** ** GCWeakPtr *)

(** [GCWeakPtr::GCWeakPtr()]. *)
Definition GCWeakPtr_ctor : GCWeakPtr := mkGCWeakPtr nullptr.

(** [++(mpCounter->count)]. *)
Definition increment_count (p : pointer) : M unit :=
  update_counter p (λ r, set_count (A32_incr (count r)) r).

(** [--(mpCounter->count)]. *)
Definition decrement_count (p : pointer) : M unit :=
  update_counter p (λ r, set_count (A32_decr (count r)) r).

(** [GCWeakPtr::GCWeakPtr(const GCWeakPtr& other)]. *)
Definition GCWeakPtr_ctor_copy (other : GCWeakPtr) : M GCWeakPtr :=
  match weak_mpCounter other with
  | Some a => increment_count (Some a);; mret (mkGCWeakPtr (Some a))
  | None => mret (mkGCWeakPtr nullptr)
  end.

(** The converting constructors from [GCWeakPtr<U>], [GCUniquePtr<U>] and
    [GCThisPtr<U>] share one body; [source] is [other.mpCounter]. *)
Definition GCWeakPtr_ctor_from `{BuildConfig} (source : pointer) : M GCWeakPtr :=
  match source with
  | Some a =>
      r ← load_counter (Some a);
      E_ASSERT ASSERT_SAFE_CAST (bool_decide (SafeCast (ptr r) ≠ nullptr));;
      increment_count (Some a);;
      mret (mkGCWeakPtr (Some a))
  | None => mret (mkGCWeakPtr nullptr)
  end.

(** [GCWeakPtr::GCWeakPtr(const GCUniquePtr<U, CounterType>& other)]. *)
Definition GCWeakPtr_ctor_unique `{BuildConfig} (other : GCUniquePtr) : M GCWeakPtr :=
  GCWeakPtr_ctor_from (unique_mpCounter other).

(** [GCWeakPtr::GCWeakPtr(const GCThisPtr<U, CounterType>& other)]. *)
Definition GCWeakPtr_ctor_this `{BuildConfig} (other : GCThisPtr) : M GCWeakPtr :=
  GCWeakPtr_ctor_from (this_mpCounter other).

(** [GCWeakPtr::Swap]. *)
Definition GCWeakPtr_Swap (this other : GCWeakPtr) : GCWeakPtr * GCWeakPtr :=
  let tmpManagedPtr := weak_mpCounter this in
  (mkGCWeakPtr (weak_mpCounter other), mkGCWeakPtr tmpManagedPtr).

(** [GCWeakPtr::Reset]: the new value of [*this]. *)
Definition GCWeakPtr_Reset `{BuildConfig} (this : GCWeakPtr) : M GCWeakPtr :=
  match weak_mpCounter this with
  | Some a =>
      decrement_count (Some a);;
      r ← load_counter (Some a);
      (if decide (count r = 0) then
         match ptr r with
         | None => E_DELETE_Counter (Some a)
         | Some _ =>
             match pCollector r with
             | Some c => IGarbageCollector_Collect (Some c) (ptr r)
             | None => mret tt
             end
         end
       else mret tt);;
      mret (mkGCWeakPtr nullptr)
  | None => mret this
  end.

(** [GCWeakPtr::~GCWeakPtr]. *)
Definition GCWeakPtr_dtor `{BuildConfig} (this : GCWeakPtr) : M unit :=
  GCWeakPtr_Reset this;; mret tt.

(** [GCWeakPtr::operator=(const GCWeakPtr& other)]:
    a copy of [other] is swapped with this handle, then the temporary
    dies. *)
Definition GCWeakPtr_op_assign `{BuildConfig} (this other : GCWeakPtr) : M GCWeakPtr :=
  tmp ← GCWeakPtr_ctor_copy other;
  let '(tmp', this') := GCWeakPtr_Swap tmp this in
  GCWeakPtr_dtor tmp';;
  mret this'.

(** [GCWeakPtr::operator=(T* ptr)]. *)
Definition GCWeakPtr_op_assign_raw `{BuildConfig} (this : GCWeakPtr) (p : pointer)
    : M GCWeakPtr :=
  E_ASSERT GARBAGE_COLLECTION_REFERENCE_ASSIGNMENT_INVALID (bool_decide (p = nullptr));;
  if decide (p = nullptr) then GCWeakPtr_Reset this else mret this.

(** [GCWeakPtr::operator->]. *)
Definition GCWeakPtr_op_arrow `{BuildConfig} (this : GCWeakPtr) : M pointer :=
  valid ← match weak_mpCounter this with
          | None => mret false
          | Some a => r ← load_counter (Some a); mret (bool_decide (ptr r ≠ nullptr))
          end;
  E_ASSERT GARBAGE_COLLECTION_REFERENCE_INVALID valid;;
  r ← load_counter (weak_mpCounter this);
  mret (ptr r).


(** [GCWeakPtr::operator==(const GCWeakPtr& other)]. *)
Definition GCWeakPtr_op_eq (this other : GCWeakPtr) : M bool :=
  if decide (weak_mpCounter this = weak_mpCounter other) then mret true
  else if decide (weak_mpCounter this = nullptr) then
    r ← load_counter (weak_mpCounter other); mret (bool_decide (ptr r = nullptr))
  else if decide (weak_mpCounter other = nullptr) then
    r ← load_counter (weak_mpCounter this); mret (bool_decide (ptr r = nullptr))
  else mret false.

(** [GCWeakPtr::operator==(const T* ptr)]. *)
Definition GCWeakPtr_op_eq_raw (this : GCWeakPtr) (p : pointer) : M bool :=
  match weak_mpCounter this with
  | None => mret (bool_decide (p = nullptr))
  | Some a => r ← load_counter (Some a); mret (bool_decide (ptr r = p))
  end.

(** [GCWeakPtr::operator!=(const GCWeakPtr& other)]. *)
Definition GCWeakPtr_op_ne (this other : GCWeakPtr) : M bool :=
  b ← GCWeakPtr_op_eq this other; mret (negb b).

(** [GCWeakPtr::operator!=(const T* ptr)]. *)
Definition GCWeakPtr_op_ne_raw (this : GCWeakPtr) (p : pointer) : M bool :=
  b ← GCWeakPtr_op_eq_raw this p; mret (negb b).

(** [GCWeakPtr::operator bool]. *)
Definition GCWeakPtr_op_bool (this : GCWeakPtr) : M bool :=
  GCWeakPtr_op_ne_raw this nullptr.

(** [GCWeakPtr::GetCount]. *)
Definition GCWeakPtr_GetCount (this : GCWeakPtr) : M Z :=
  match weak_mpCounter this with
  | None => mret 0
  | Some a => r ← load_counter (Some a); mret (count r)
  end.

(** [GCWeakPtr::GetPtr]. *)
Definition GCWeakPtr_GetPtr (this : GCWeakPtr) : M pointer :=
  match weak_mpCounter this with
  | None => mret nullptr
  | Some a => r ← load_counter (Some a); mret (ptr r)
  end.

(** [GCConcreteFactory<T>::Create]: the temporary [Ptr(ptr, this)] is
    copied into the list, which empties it, and then dies; the result is
    the [Ref] built from the last element.  Copies of that [Ref] made and
    destroyed while it is returned by value add one to the count and take
    it away again, and are left out. *)
Definition GCConcreteFactory_Create `{BuildConfig} (this : nat) : M GCWeakPtr :=
  f ← load_factory this;
  p ← E_NEW_T (mpAllocator f);
  E_ASSERT ASSERT_PTR (bool_decide (p ≠ nullptr));;
  tmp ← GCUniquePtr_ctor_raw p (Some this);
  let '(element, tmp') := GCUniquePtr_ctor_copy tmp in
  f ← load_factory this;
  store_factory this (set_mLiveList (mLiveList f ++ [element]) f);;
  GCUniquePtr_dtor tmp';;
  f ← load_factory this;
  match last (mLiveList f) with
  | Some back => GCWeakPtr_ctor_unique back
  | None => fault NullDereference
  end.

(** ** Observations on traces *)

Definition is_Collect (e : Event) : bool :=
  match e with EvCollect _ _ => true | _ => false end.
Definition is_Destroy (e : Event) : bool :=
  match e with EvDestroy _ _ => true | _ => false end.
Definition is_Allocate (e : Event) : bool :=
  match e with EvAllocate _ _ => true | _ => false end.

Fixpoint count_events (f : Event → bool) (t : list Event) : nat :=
  match t with
  | [] => 0%nat
  | e :: t' => ((if f e then 1 else 0) + count_events f t')%nat
  end.

(** ** A caller: DX11Device

    [Graphics/DX11/DX11Device.cpp] creates its resources through factory
    members.  Their declarations ([DX11Device.h]) are not part of the
    sources: the members are taken to be [GCConcreteFactory] objects and the
    instance types [GCWeakPtr]s, as the [typedef] of [IPipelineInstance] in
    [IPipeline.h] has it.  What [Initialize] of the new object answers is an
    argument; it is taken to touch neither handles nor factories. *)

(** [DX11Device::CreateBlendState], and with it [CreateDepthStencilState],
    [CreateRenderTarget], [CreateRasterState], [CreateSampler],
    [CreateShader], [CreateTexture2D], [CreateVertexLayout] and
    [CreateViewport], which have the same body.  The local handle is
    converted to the interface handle that is returned, and then dies. *)
Definition DX11Device_CreateBlendState `{BuildConfig} (mBlendStateFactory : nat)
    (initialized : bool) : M GCWeakPtr :=
  (if E_DEBUG then GCConcreteFactory_GetLiveCount mBlendStateFactory;; mret tt
   else mret tt);;
  blendState ← GCConcreteFactory_Create mBlendStateFactory;
  object ← GCWeakPtr_op_arrow blendState;
  match object with
  | None => fault NullDereference
  | Some _ =>
      blendState ← (if negb initialized
                    then GCWeakPtr_op_assign_raw blendState nullptr
                    else mret blendState);
      result ← GCWeakPtr_ctor_from (weak_mpCounter blendState);
      GCWeakPtr_dtor blendState;;
      mret result
  end.

(** [DX11Device::CreateBuffer]: the answer of [Initialize] is not looked
    at. *)
Definition DX11Device_CreateBuffer `{BuildConfig} (mBufferFactory : nat) : M GCWeakPtr :=
  (if E_DEBUG then GCConcreteFactory_GetLiveCount mBufferFactory;; mret tt
   else mret tt);;
  buffer ← GCConcreteFactory_Create mBufferFactory;
  object ← GCWeakPtr_op_arrow buffer;
  match object with
  | None => fault NullDereference
  | Some _ =>
      result ← GCWeakPtr_ctor_from (weak_mpCounter buffer);
      GCWeakPtr_dtor buffer;;
      mret result
  end.

(** ** The invariant of a factory

    The object that an entry of the live list owns on behalf of the factory
    [this]: the object pointer of its record, when the record is allocated
    and names [this] as its collector. *)
Definition owned_object (w : World) (this : nat) (u : GCUniquePtr) : pointer :=
  match unique_mpCounter u with
  | Some a =>
      match counters w !! a with
      | Some r => if decide (pCollector r = Some this) then ptr r else nullptr
      | None => nullptr
      end
  | None => nullptr
  end.

(** Outside [CleanUp], every entry of the live list owns an object, and no
    object is owned twice. *)
Definition factory_ok (w : World) (this : nat) : Prop :=
  ∃ f : GCConcreteFactory,
    factories w !! this = Some f ∧
    mCleaningUp f = false ∧
    Forall (λ u, is_Some (owned_object w this u)) (mLiveList f) ∧
    NoDup (owned_object w this <$> mLiveList f).

(** ** Concrete stores used by the examples *)

Definition DebugBuild : BuildConfig := {| E_DEBUG := true |}.
Definition ReleaseBuild : BuildConfig := {| E_DEBUG := false |}.

Definition store_of (cs : list (nat * GCCounter)) (fs : list (nat * GCConcreteFactory))
    (al : list pointer) : World :=
  {| counters := list_to_map cs; factories := list_to_map fs;
     allocator := al; trace := [] |}.

(** A factory at address 7 that has created nothing yet; its allocator, at
    address 3, will hand out the object at address 100. *)
Definition fresh_factory_store : World :=
  store_of [] [(7%nat, GCConcreteFactory_ctor (Some 3%nat))] [Some 100%nat].

(** The same factory in front of an allocator that has no memory left. *)
Definition exhausted_store : World :=
  store_of [] [(7%nat, GCConcreteFactory_ctor (Some 3%nat))] [nullptr].

(** A record made by a [GCThisPtr] (no collector) for the object at 100,
    observed by one weak handle. *)
Definition this_record_store : World :=
  store_of [(0%nat, {| count := 1; ptr := Some 100%nat; pCollector := nullptr |})] [] [].

(** Two records from unrelated allocations that hold the same raw
    pointer. *)
Definition same_object_store : World :=
  store_of [(0%nat, {| count := 0; ptr := Some 100%nat; pCollector := Some 7%nat |});
            (1%nat, {| count := 0; ptr := Some 100%nat; pCollector := Some 7%nat |})]
           [(7%nat, GCConcreteFactory_ctor (Some 3%nat))] [].

(** Two records whose owners are gone (object pointer null), each still
    observed by one weak handle. *)
Definition expired_store : World :=
  store_of [(0%nat, {| count := 1; ptr := nullptr; pCollector := Some 7%nat |});
            (1%nat, {| count := 1; ptr := nullptr; pCollector := Some 7%nat |})]
           [(7%nat, GCConcreteFactory_ctor (Some 3%nat))] [].

(** An object at 100 owned through record 0, with one weak handle
    attached; the collector is the factory at 7. *)
Definition owned_observed_store : World :=
  store_of [(0%nat, {| count := 1; ptr := Some 100%nat; pCollector := Some 7%nat |})]
           [(7%nat, {| mpAllocator := Some 3%nat;
                       mLiveList := [mkGCUniquePtr (Some 0%nat)];
                       mCleaningUp := false |})] [].

(** A factory with three live objects, none of them observed any more. *)
Definition three_live_store (cleaning : bool) : World :=
  store_of [(0%nat, {| count := 0; ptr := Some 100%nat; pCollector := Some 7%nat |});
            (1%nat, {| count := 0; ptr := Some 101%nat; pCollector := Some 7%nat |});
            (2%nat, {| count := 0; ptr := Some 102%nat; pCollector := Some 7%nat |})]
           [(7%nat, {| mpAllocator := Some 3%nat;
                       mLiveList := [mkGCUniquePtr (Some 0%nat); mkGCUniquePtr (Some 1%nat);
                                     mkGCUniquePtr (Some 2%nat)];
                       mCleaningUp := cleaning |})] [].

(** A factory with two live objects: the first observed by one weak
    handle, the second by two. Its allocator will hand out the object at
    102 next. *)
Definition busy_store : World :=
  store_of [(0%nat, {| count := 1; ptr := Some 100%nat; pCollector := Some 7%nat |});
            (1%nat, {| count := 2; ptr := Some 101%nat; pCollector := Some 7%nat |})]
           [(7%nat, {| mpAllocator := Some 3%nat;
                       mLiveList := [mkGCUniquePtr (Some 0%nat); mkGCUniquePtr (Some 1%nat)];
                       mCleaningUp := false |})] [Some 102%nat].

(** * Properties *)

(** ** Running computations *)

Lemma run_bind {A B} (m : M A) (k : A → M B) (w : World) :
  (m ≫= k) w = match m w with
               | Ok (a, w') => k a w'
               | Fatal f => Fatal f
               end.
Proof. reflexivity. Qed.

Lemma run_bind_Ok {A B} (m : M A) (k : A → M B) (w w' : World) (a : A) :
  m w = Ok (a, w') → (m ≫= k) w = k a w'.
Proof. intros E. rewrite run_bind, E. reflexivity. Qed.

(** One step of a computation whose first action is known. *)
Tactic Notation "step" uconstr(E) := rewrite (run_bind_Ok _ _ _ _ _ E).

Lemma run_bind_Fatal {A B} (m : M A) (k : A → M B) (w : World) (f : Fault) :
  m w = Fatal f → (m ≫= k) w = Fatal f.
Proof. intros E. rewrite run_bind, E. reflexivity. Qed.

Lemma run_load_counter (w : World) (a : nat) (r : GCCounter) :
  counters w !! a = Some r → load_counter (Some a) w = Ok (r, w).
Proof. intros E. unfold load_counter. rewrite E. reflexivity. Qed.

Lemma run_update_counter (w : World) (a : nat) (r : GCCounter) (f : GCCounter → GCCounter) :
  counters w !! a = Some r →
  update_counter (Some a) f w = Ok (tt, set_counters <[a := f r]> w).
Proof.
  intros E. unfold update_counter.
  step (run_load_counter w a r E). reflexivity.
Qed.

Lemma run_E_DELETE_Counter (w : World) (a : nat) (r : GCCounter) :
  counters w !! a = Some r →
  E_DELETE_Counter (Some a) w = Ok (tt, set_counters (delete a) w).
Proof.
  intros E. unfold E_DELETE_Counter.
  step (run_load_counter w a r E). reflexivity.
Qed.

Lemma run_load_factory (w : World) (c : nat) (f : GCConcreteFactory) :
  factories w !! c = Some f → load_factory c w = Ok (f, w).
Proof. intros E. unfold load_factory. rewrite E. reflexivity. Qed.

Lemma run_E_ASSERT_holds `{BuildConfig} (a : Assertion) (w : World) :
  E_ASSERT a true w = Ok (tt, w).
Proof. unfold E_ASSERT. rewrite andb_false_r. reflexivity. Qed.

Lemma run_E_ASSERT_passes `{BuildConfig} (a : Assertion) (cond : bool) (w : World) :
  E_DEBUG && negb cond = false → E_ASSERT a cond w = Ok (tt, w).
Proof. intros E. unfold E_ASSERT. rewrite E. reflexivity. Qed.

Lemma count_events_app (f : Event → bool) (t1 t2 : list Event) :
  count_events f (t1 ++ t2) = (count_events f t1 + count_events f t2)%nat.
Proof.
  induction t1 as [|e t1 IH]; simpl; [reflexivity|].
  rewrite IH. lia.
Qed.

(** ** Reset of empty handles *)

(** C9. [Reset] on a [GCUniquePtr] or a [GCWeakPtr] that holds no counter
    record returns normally, leaves the whole store as it was (no record
    freed, no [Collect] or [Destroy] in the trace) and leaves the handle
    empty. *)
Theorem Reset_empty_noop `{BuildConfig} (w : World) (u : GCUniquePtr) (h : GCWeakPtr) :
  unique_mpCounter u = nullptr →
  weak_mpCounter h = nullptr →
  GCUniquePtr_Reset u w = Ok (u, w) ∧ GCWeakPtr_Reset h w = Ok (h, w).
Proof.
  destruct u as [pu], h as [ph]; simpl; intros -> ->.
  split; reflexivity.
Qed.

Lemma Reset_empty_noop_witness :
  @GCUniquePtr_Reset DebugBuild GCUniquePtr_ctor owned_observed_store
    = Ok (GCUniquePtr_ctor, owned_observed_store) ∧
  @GCWeakPtr_Reset DebugBuild GCWeakPtr_ctor owned_observed_store
    = Ok (GCWeakPtr_ctor, owned_observed_store).
Proof.
  apply (@Reset_empty_noop DebugBuild owned_observed_store GCUniquePtr_ctor GCWeakPtr_ctor);
    reflexivity.
Defined.

(** ** Equality of handles *)

Lemma GCUniquePtr_op_eq_other_record (w : World) (u1 u2 : GCUniquePtr) :
  unique_mpCounter u1 ≠ unique_mpCounter u2 →
  GCUniquePtr_op_eq u1 u2 w = Ok (false, w).
Proof.
  intros Hne. unfold GCUniquePtr_op_eq.
  destruct (decide _) as [E|_]; [contradiction|reflexivity].
Qed.

Lemma GCUniquePtr_op_eq_same_record (w : World) (u1 u2 : GCUniquePtr) (a : nat) (r : GCCounter) :
  unique_mpCounter u1 = Some a →
  unique_mpCounter u2 = Some a →
  counters w !! a = Some r →
  GCUniquePtr_op_eq u1 u2 w = Ok (true, w).
Proof.
  intros E1 E2 Hr. unfold GCUniquePtr_op_eq. rewrite E1, E2.
  destruct (decide _) as [_|N]; [|congruence].
  step (run_load_counter w a r Hr).
  step (run_load_counter w a r Hr).
  unfold mret, M_ret, ret. rewrite bool_decide_eq_true_2; reflexivity.
Qed.

(** C5, as the code has it. [GCUniquePtr::operator==] looks at the
    identity of the counter record first: of two handles, at least one of
    which holds a record, the comparison yields true exactly when both hold
    the same (allocated) record; handles that hold different records
    compare not-equal whatever raw pointers the records hold. *)
Theorem GCUniquePtr_op_eq_is_record_identity (w : World) (u1 u2 : GCUniquePtr) :
  unique_mpCounter u1 ≠ nullptr ∨ unique_mpCounter u2 ≠ nullptr →
  (∀ a, unique_mpCounter u1 = Some a → unique_mpCounter u2 = Some a →
        is_Some (counters w !! a)) →
  GCUniquePtr_op_eq u1 u2 w
    = Ok (bool_decide (unique_mpCounter u1 = unique_mpCounter u2), w).
Proof.
  intros Hsome Halloc.
  destruct (decide (unique_mpCounter u1 = unique_mpCounter u2)) as [E|N].
  - rewrite bool_decide_eq_true_2 by assumption.
    destruct (unique_mpCounter u1) as [a|] eqn:E1.
    + destruct (Halloc a eq_refl (eq_sym E)) as [r Hr].
      eapply GCUniquePtr_op_eq_same_record; eauto.
    + destruct Hsome as [C|C]; [congruence|]. rewrite <- E in C. congruence.
  - rewrite bool_decide_eq_false_2 by assumption.
    apply GCUniquePtr_op_eq_other_record. assumption.
Qed.

Lemma GCUniquePtr_op_eq_is_record_identity_witness :
  GCUniquePtr_op_eq (mkGCUniquePtr (Some 0%nat)) (mkGCUniquePtr (Some 1%nat))
      same_object_store
    = Ok (false, same_object_store) ∧
  GCUniquePtr_op_eq (mkGCUniquePtr (Some 0%nat)) (mkGCUniquePtr (Some 0%nat))
      same_object_store
    = Ok (true, same_object_store).
Proof.
  split.
  - apply (GCUniquePtr_op_eq_is_record_identity same_object_store
             (mkGCUniquePtr (Some 0%nat)) (mkGCUniquePtr (Some 1%nat))).
    + left. discriminate.
    + simpl. intros a E1 E2. congruence.
  - apply (GCUniquePtr_op_eq_is_record_identity same_object_store
             (mkGCUniquePtr (Some 0%nat)) (mkGCUniquePtr (Some 0%nat))).
    + left. discriminate.
    + simpl. intros a E1 _. injection E1 as <-. vm_compute. eauto.
Defined.

(** C5 fails as stated: two handles whose records come from unrelated
    allocations and hold the same raw pointer compare not-equal, and
    comparing two empty handles reads through a null [mpCounter] instead of
    yielding [false]. *)
Lemma GCUniquePtr_op_eq_not_by_object :
  counters same_object_store !! 0%nat
    = Some {| count := 0; ptr := Some 100%nat; pCollector := Some 7%nat |} ∧
  counters same_object_store !! 1%nat
    = Some {| count := 0; ptr := Some 100%nat; pCollector := Some 7%nat |} ∧
  GCUniquePtr_op_eq (mkGCUniquePtr (Some 0%nat)) (mkGCUniquePtr (Some 1%nat))
      same_object_store
    = Ok (false, same_object_store) ∧
  GCUniquePtr_op_eq (mkGCUniquePtr nullptr) (mkGCUniquePtr nullptr) same_object_store
    = Fatal NullDereference.
Proof. repeat split; vm_compute; reflexivity. Qed.

(** What a weak handle resolves to, without running anything. *)
Lemma GCWeakPtr_GetPtr_attached (w : World) (h : GCWeakPtr) (a : nat) (r : GCCounter) :
  weak_mpCounter h = Some a →
  counters w !! a = Some r →
  GCWeakPtr_GetPtr h w = Ok (ptr r, w).
Proof.
  intros E Hr. unfold GCWeakPtr_GetPtr. rewrite E.
  step (run_load_counter w a r Hr). reflexivity.
Qed.

Lemma GCWeakPtr_op_eq_same (w : World) (h1 h2 : GCWeakPtr) :
  weak_mpCounter h1 = weak_mpCounter h2 → GCWeakPtr_op_eq h1 h2 w = Ok (true, w).
Proof.
  intros E. unfold GCWeakPtr_op_eq.
  destruct (decide _); [reflexivity|contradiction].
Qed.

Lemma GCWeakPtr_op_eq_distinct_records (w : World) (h1 h2 : GCWeakPtr) (a1 a2 : nat) :
  weak_mpCounter h1 = Some a1 →
  weak_mpCounter h2 = Some a2 →
  a1 ≠ a2 →
  GCWeakPtr_op_eq h1 h2 w = Ok (false, w).
Proof.
  intros E1 E2 N. unfold GCWeakPtr_op_eq. rewrite E1, E2.
  repeat (destruct (decide _) as [C|_]; [congruence|]). reflexivity.
Qed.

(** C6, as the code has it. For weak handles whose records (if any) are
    allocated, [operator==] yields true if and only if both hold the same
    counter record (both empty included), or one of them is empty and the
    other resolves to a null object; two handles attached to different
    records compare not-equal even when both records have a null object
    pointer. *)
Theorem GCWeakPtr_op_eq_spec (w : World) (h1 h2 : GCWeakPtr) :
  (∀ a, weak_mpCounter h1 = Some a → is_Some (counters w !! a)) →
  (∀ a, weak_mpCounter h2 = Some a → is_Some (counters w !! a)) →
  ∃ b : bool,
    GCWeakPtr_op_eq h1 h2 w = Ok (b, w) ∧
    (b = true ↔
       weak_mpCounter h1 = weak_mpCounter h2 ∨
       (weak_mpCounter h1 = nullptr ∧ GCWeakPtr_GetPtr h2 w = Ok (nullptr, w)) ∨
       (weak_mpCounter h2 = nullptr ∧ GCWeakPtr_GetPtr h1 w = Ok (nullptr, w))).
Proof.
  intros A1 A2.
  destruct (decide (weak_mpCounter h1 = weak_mpCounter h2)) as [E|N].
  { exists true. split; [apply GCWeakPtr_op_eq_same; assumption|]. tauto. }
  destruct (weak_mpCounter h1) as [a1|] eqn:E1, (weak_mpCounter h2) as [a2|] eqn:E2.
  - exists false. split.
    + apply (GCWeakPtr_op_eq_distinct_records w h1 h2 a1 a2);
        [assumption|assumption|congruence].
    + split; [discriminate|]. intros [C|[[C _]|[C _]]]; congruence.
  - destruct (A1 a1 eq_refl) as [r Hr].
    exists (bool_decide (ptr r = nullptr)). split.
    + unfold GCWeakPtr_op_eq. rewrite E1, E2.
      repeat (destruct (decide _) as [C|_]; [congruence|]).
      destruct (decide _) as [_|C]; [|congruence].
      step (run_load_counter w a1 r Hr). reflexivity.
    + rewrite (GCWeakPtr_GetPtr_attached w h1 a1 r E1 Hr).
      rewrite bool_decide_eq_true. split.
      * intros P. right. right. rewrite P. split; reflexivity.
      * intros [C|[[C _]|[_ C]]]; congruence.
  - destruct (A2 a2 eq_refl) as [r Hr].
    exists (bool_decide (ptr r = nullptr)). split.
    + unfold GCWeakPtr_op_eq. rewrite E1, E2.
      destruct (decide _) as [C|_]; [congruence|].
      destruct (decide _) as [_|C]; [|congruence].
      step (run_load_counter w a2 r Hr). reflexivity.
    + rewrite (GCWeakPtr_GetPtr_attached w h2 a2 r E2 Hr).
      rewrite bool_decide_eq_true. split.
      * intros P. right. left. rewrite P. split; reflexivity.
      * intros [C|[[_ C]|[C _]]]; congruence.
  - congruence.
Qed.

Lemma GCWeakPtr_op_eq_spec_witness :
  ∃ b : bool,
    GCWeakPtr_op_eq (mkGCWeakPtr (Some 0%nat)) (mkGCWeakPtr nullptr) expired_store
      = Ok (b, expired_store) ∧
    (b = true ↔
       Some 0%nat = nullptr ∨
       (Some 0%nat = nullptr ∧
        GCWeakPtr_GetPtr (mkGCWeakPtr nullptr) expired_store = Ok (nullptr, expired_store)) ∨
       (nullptr = nullptr ∧
        GCWeakPtr_GetPtr (mkGCWeakPtr (Some 0%nat)) expired_store
          = Ok (nullptr, expired_store))).
Proof.
  apply (GCWeakPtr_op_eq_spec expired_store (mkGCWeakPtr (Some 0%nat)) (mkGCWeakPtr nullptr)).
  - simpl. intros a E. injection E as <-. vm_compute. eauto.
  - simpl. intros a E. discriminate.
Defined.

(** C6 fails as stated: two expired handles attached to two different
    records, both with a null object pointer, compare not-equal. *)
Lemma GCWeakPtr_op_eq_expired_differ :
  GCWeakPtr_GetPtr (mkGCWeakPtr (Some 0%nat)) expired_store = Ok (nullptr, expired_store) ∧
  GCWeakPtr_GetPtr (mkGCWeakPtr (Some 1%nat)) expired_store = Ok (nullptr, expired_store) ∧
  GCWeakPtr_op_eq (mkGCWeakPtr (Some 0%nat)) (mkGCWeakPtr (Some 1%nat)) expired_store
    = Ok (false, expired_store).
Proof. repeat split; vm_compute; reflexivity. Qed.

(** ** Transfer of ownership *)

Lemma GCUniquePtr_Swap_exchanges (this other : GCUniquePtr) :
  GCUniquePtr_Swap this other = (other, this).
Proof. destruct this, other. reflexivity. Qed.

(** C7 at the failing input. Copy assignment is a plain swap: the
    destination gets the record of the source and the source gets whatever
    the destination held, so the source ends up empty only when the
    destination was empty. Assigning the owner of record 2 to a handle that
    owns record 1 leaves the source owning record 1. Copy construction does
    empty its source. *)
Theorem GCUniquePtr_op_assign_swaps (this other : GCUniquePtr) :
  GCUniquePtr_op_assign this other = (other, this) ∧
  (unique_mpCounter (snd (GCUniquePtr_op_assign this other)) = nullptr
     ↔ unique_mpCounter this = nullptr) ∧
  GCUniquePtr_ctor_copy other = (other, GCUniquePtr_ctor) ∧
  GCUniquePtr_op_assign (mkGCUniquePtr (Some 1%nat)) (mkGCUniquePtr (Some 2%nat))
    = (mkGCUniquePtr (Some 2%nat), mkGCUniquePtr (Some 1%nat)).
Proof.
  unfold GCUniquePtr_op_assign, GCUniquePtr_ctor_copy.
  rewrite !GCUniquePtr_Swap_exchanges. simpl.
  split; [reflexivity|]. split; [tauto|]. split; reflexivity.
Qed.

(** ** Reset of an attached weak handle *)

Lemma set_counters_delete_insert (w : World) (a : nat) (r : GCCounter) :
  set_counters (delete a) (set_counters <[a := r]> w) = set_counters (delete a) w.
Proof. unfold set_counters. simpl. rewrite delete_insert_eq. reflexivity. Qed.

Lemma set_counters_insert_insert (w : World) (a : nat) (r1 r2 : GCCounter) :
  set_counters <[a := r2]> (set_counters <[a := r1]> w) = set_counters <[a := r2]> w.
Proof. unfold set_counters. simpl. rewrite insert_insert_eq. reflexivity. Qed.

Lemma counters_set_counters_insert (w : World) (a : nat) (r : GCCounter) :
  counters (set_counters <[a := r]> w) !! a = Some r.
Proof. simpl. apply lookup_insert_eq. Qed.

(** The whole of [GCWeakPtr::Reset] on a handle attached to an allocated
    record, branch by branch. *)
Lemma GCWeakPtr_Reset_attached `{BuildConfig} (w : World) (h : GCWeakPtr)
    (a : nat) (r : GCCounter) :
  weak_mpCounter h = Some a →
  counters w !! a = Some r →
  GCWeakPtr_Reset h w =
    let r' := set_count (A32_decr (count r)) r in
    let w' := set_counters <[a := r']> w in
    if decide (count r' = 0) then
      match ptr r, pCollector r with
      | None, _ => Ok (mkGCWeakPtr nullptr, set_counters (delete a) w)
      | Some o, Some c =>
          (IGarbageCollector_Collect (Some c) (Some o);; mret (mkGCWeakPtr nullptr)) w'
      | Some o, None => Ok (mkGCWeakPtr nullptr, w')
      end
    else Ok (mkGCWeakPtr nullptr, w').
Proof.
  intros E Hr. unfold GCWeakPtr_Reset, decrement_count. rewrite E.
  step (run_update_counter w a r _ Hr).
  step (run_load_counter _ a _ (counters_set_counters_insert w a _)).
  cbv zeta. destruct (decide _) as [Z|NZ]; [|reflexivity].
  destruct r as [n [o|] pc]; simpl in *.
  - destruct pc as [c|]; reflexivity.
  - step (run_E_DELETE_Counter _ a _ (counters_set_counters_insert w a _)).
    rewrite set_counters_delete_insert. reflexivity.
Qed.

(** C2, as the code has it. [Reset] on a weak handle attached to an
    allocated record decrements [count]. When the count reaches zero and
    the object pointer is null the record is freed; when it reaches zero,
    the object pointer is not null and the record has a collector,
    [Collect] is invoked on that collector with the object; with no
    collector nothing more is done. When the count does not reach zero only
    the count of the record changes. Whenever [Reset] returns, the handle is
    empty. *)
Theorem GCWeakPtr_Reset_post `{BuildConfig} (w : World) (h : GCWeakPtr)
    (a : nat) (r : GCCounter) :
  weak_mpCounter h = Some a →
  counters w !! a = Some r →
  let r' := set_count (A32_decr (count r)) r in
  let w' := set_counters <[a := r']> w in
  (count r' ≠ 0 → GCWeakPtr_Reset h w = Ok (mkGCWeakPtr nullptr, w')) ∧
  (count r' = 0 → ptr r = nullptr →
     GCWeakPtr_Reset h w = Ok (mkGCWeakPtr nullptr, set_counters (delete a) w)) ∧
  (∀ o c, count r' = 0 → ptr r = Some o → pCollector r = Some c →
     GCWeakPtr_Reset h w
       = (IGarbageCollector_Collect (Some c) (Some o);; mret (mkGCWeakPtr nullptr)) w') ∧
  (∀ o, count r' = 0 → ptr r = Some o → pCollector r = nullptr →
     GCWeakPtr_Reset h w = Ok (mkGCWeakPtr nullptr, w')) ∧
  (∀ h2 w2, GCWeakPtr_Reset h w = Ok (h2, w2) → weak_mpCounter h2 = nullptr).
Proof.
  intros E Hr r' w'.
  pose proof (GCWeakPtr_Reset_attached w h a r E Hr) as R. cbv zeta in R.
  fold r' in R. fold w' in R.
  repeat split.
  - intros NZ. rewrite R. destruct (decide _); [contradiction|reflexivity].
  - intros Z P. rewrite R, P. destruct (decide _); [reflexivity|contradiction].
  - intros o c Z P C. rewrite R, P, C. destruct (decide _); [reflexivity|contradiction].
  - intros o Z P C. rewrite R, P, C. destruct (decide _); [reflexivity|contradiction].
  - intros h2 w2. rewrite R.
    destruct (decide _); [|intros [= <- _]; reflexivity].
    destruct (ptr r) as [o|]; [|intros [= <- _]; reflexivity].
    destruct (pCollector r) as [c|]; [|intros [= <- _]; reflexivity].
    rewrite run_bind.
    destruct (IGarbageCollector_Collect (Some c) (Some o) w') as [[[] w3]|f];
      [|discriminate].
    intros [= <- _]. reflexivity.
Qed.

(** C2 fails as stated: on a record without collector the count reaches
    zero with the object pointer still set, and no [Collect] is invoked. *)
Lemma GCWeakPtr_Reset_without_collector :
  counters this_record_store !! 0%nat
    = Some {| count := 1; ptr := Some 100%nat; pCollector := nullptr |} ∧
  ∃ w' : World,
    @GCWeakPtr_Reset DebugBuild (mkGCWeakPtr (Some 0%nat)) this_record_store
      = Ok (mkGCWeakPtr nullptr, w') ∧
    counters w' !! 0%nat
      = Some {| count := 0; ptr := Some 100%nat; pCollector := nullptr |} ∧
    count_events is_Collect (trace w') = 0%nat.
Proof.
  split; [vm_compute; reflexivity|].
  eexists. split; [vm_compute; reflexivity|].
  split; vm_compute; reflexivity.
Qed.

Lemma GCWeakPtr_Reset_post_witness :
  @GCWeakPtr_Reset DebugBuild (mkGCWeakPtr (Some 0%nat)) owned_observed_store
    = (@IGarbageCollector_Collect DebugBuild (Some 7%nat) (Some 100%nat);;
       mret (mkGCWeakPtr nullptr))
        (set_counters
           <[0%nat := {| count := 0; ptr := Some 100%nat; pCollector := Some 7%nat |}]>
           owned_observed_store).
Proof.
  pose proof (@GCWeakPtr_Reset_post DebugBuild owned_observed_store
                (mkGCWeakPtr (Some 0%nat)) 0%nat
                {| count := 1; ptr := Some 100%nat; pCollector := Some 7%nat |}
                eq_refl eq_refl) as P.
  cbv zeta in P. destruct P as (_ & _ & P & _).
  apply (P 100%nat 7%nat); reflexivity.
Defined.

(** ** Records without collector *)

Lemma GCThisPtr_ctor_record (w : World) (p : pointer) :
  let a := fresh (dom (counters w)) in
  GCThisPtr_ctor p w
    = Ok (mkGCThisPtr (Some a),
          set_counters <[a := {| count := 0; ptr := p; pCollector := nullptr |}]> w).
Proof.
  intros a. unfold GCThisPtr_ctor.
  step (eq_refl : E_NEW_Counter w = Ok (a, _)).
  step (run_update_counter _ a _ _ (counters_set_counters_insert w a _)).
  rewrite set_counters_insert_insert. reflexivity.
Qed.

Lemma GCThisPtr_dtor_attached (w : World) (t : GCThisPtr) (a : nat) (r : GCCounter) :
  this_mpCounter t = Some a →
  counters w !! a = Some r →
  GCThisPtr_dtor t w
    = Ok (tt, if decide (count r = 0) then set_counters (delete a) w
              else set_counters <[a := set_ptr nullptr r]> w).
Proof.
  intros E Hr. unfold GCThisPtr_dtor. rewrite E.
  step (run_load_counter w a r Hr).
  destruct (decide _).
  - apply (run_E_DELETE_Counter w a r Hr).
  - apply (run_update_counter w a r _ Hr).
Qed.

(** C10. A record made by a [GCThisPtr] has no collector. When the [Reset]
    of the last weak handle brings its count to zero while the object
    pointer is still set, the record is not freed and nothing is added to
    the trace (no [Collect]): it stays allocated with count 0 and the same
    object pointer. The destructor of the [GCThisPtr] then frees it; in
    general that destructor frees the record exactly when the count it
    reads is zero and otherwise only nulls the object pointer. *)
Theorem GCWeakPtr_Reset_no_collector `{BuildConfig} (w : World) (h : GCWeakPtr)
    (t : GCThisPtr) (a : nat) (r : GCCounter) (o : nat) :
  weak_mpCounter h = Some a →
  this_mpCounter t = Some a →
  counters w !! a = Some r →
  pCollector r = nullptr →
  ptr r = Some o →
  A32_decr (count r) = 0 →
  let w' := set_counters
              <[a := {| count := 0; ptr := Some o; pCollector := nullptr |}]> w in
  GCWeakPtr_Reset h w = Ok (mkGCWeakPtr nullptr, w') ∧
  counters w' !! a = Some {| count := 0; ptr := Some o; pCollector := nullptr |} ∧
  trace w' = trace w ∧
  GCThisPtr_dtor t w' = Ok (tt, set_counters (delete a) w) ∧
  (∀ (w2 : World) (r2 : GCCounter),
     counters w2 !! a = Some r2 →
     GCThisPtr_dtor t w2
       = Ok (tt, if decide (count r2 = 0) then set_counters (delete a) w2
                 else set_counters <[a := set_ptr nullptr r2]> w2)) ∧
  (∀ (w0 : World) (p : pointer) (t0 : GCThisPtr) (w1 : World),
     GCThisPtr_ctor p w0 = Ok (t0, w1) →
     ∃ a0, this_mpCounter t0 = Some a0 ∧
           counters w1 !! a0 = Some {| count := 0; ptr := p; pCollector := nullptr |}).
Proof.
  intros E Et Hr C P Z w'.
  assert (set_count (A32_decr (count r)) r
          = {| count := 0; ptr := Some o; pCollector := nullptr |}) as Er.
  { destruct r; simpl in *. subst. unfold set_count. simpl. rewrite Z. reflexivity. }
  repeat split.
  - rewrite (GCWeakPtr_Reset_attached w h a r E Hr). cbv zeta.
    rewrite Er, P, C. simpl. reflexivity.
  - apply counters_set_counters_insert.
  - rewrite (GCThisPtr_dtor_attached w' t a _ Et (counters_set_counters_insert w a _)).
    simpl. unfold w'. rewrite set_counters_delete_insert. reflexivity.
  - intros w2 r2 H2. apply (GCThisPtr_dtor_attached w2 t a r2 Et H2).
  - intros w0 p t0 w1. rewrite GCThisPtr_ctor_record. intros [= <- <-].
    eexists. split; [reflexivity|]. apply counters_set_counters_insert.
Qed.

Lemma GCWeakPtr_Reset_no_collector_witness :
  let w' := set_counters
              <[0%nat := {| count := 0; ptr := Some 100%nat; pCollector := nullptr |}]>
              this_record_store in
  @GCWeakPtr_Reset DebugBuild (mkGCWeakPtr (Some 0%nat)) this_record_store
    = Ok (mkGCWeakPtr nullptr, w') ∧
  GCThisPtr_dtor (mkGCThisPtr (Some 0%nat)) w'
    = Ok (tt, set_counters (delete 0%nat) this_record_store).
Proof.
  pose proof (@GCWeakPtr_Reset_no_collector DebugBuild this_record_store
                (mkGCWeakPtr (Some 0%nat)) (mkGCThisPtr (Some 0%nat)) 0%nat
                {| count := 1; ptr := Some 100%nat; pCollector := nullptr |} 100%nat
                eq_refl eq_refl eq_refl eq_refl eq_refl eq_refl) as P.
  cbv zeta in P. destruct P as (P1 & _ & _ & P2 & _).
  split; assumption.
Defined.

(** ** Reset of an owning handle *)

Lemma run_GCConcreteFactory_Destroy `{BuildConfig} (w : World) (c : nat)
    (f : GCConcreteFactory) (o : nat) :
  factories w !! c = Some f →
  GCConcreteFactory_Destroy c (Some o) w
    = Ok (tt, log_event (EvDeallocate (mpAllocator f) (Some o)) w).
Proof.
  intros Hf. unfold GCConcreteFactory_Destroy.
  step (run_load_factory w c f Hf).
  rewrite bool_decide_eq_true_2 by discriminate.
  step (run_E_ASSERT_holds _ w).
  reflexivity.
Qed.

Lemma run_IGarbageCollector_Destroy `{BuildConfig} (w : World) (c : nat)
    (f : GCConcreteFactory) (o : nat) :
  factories w !! c = Some f →
  IGarbageCollector_Destroy (Some c) (Some o) w
    = Ok (tt, log_event (EvDeallocate (mpAllocator f) (Some o))
                (log_event (EvDestroy c (Some o)) w)).
Proof.
  intros Hf. unfold IGarbageCollector_Destroy.
  rewrite run_bind. simpl.
  apply run_GCConcreteFactory_Destroy. exact Hf.
Qed.

(** The whole of [GCUniquePtr::Reset] on the owner of a live object whose
    collector is a factory of the store. *)
Lemma GCUniquePtr_Reset_attached `{BuildConfig} (w : World) (u : GCUniquePtr)
    (a : nat) (r : GCCounter) (o c : nat) (f : GCConcreteFactory) :
  unique_mpCounter u = Some a →
  counters w !! a = Some r →
  ptr r = Some o →
  pCollector r = Some c →
  factories w !! c = Some f →
  GCUniquePtr_Reset u w
    = Ok (mkGCUniquePtr nullptr,
          set_counters
            (if decide (count r = 0) then delete a else <[a := set_ptr nullptr r]>)
            (log_event (EvDeallocate (mpAllocator f) (Some o))
               (log_event (EvDestroy c (Some o)) w))).
Proof.
  intros E Hr P C Hf. unfold GCUniquePtr_Reset. rewrite E.
  step (run_load_counter w a r Hr).
  rewrite P, C.
  step (run_IGarbageCollector_Destroy w c f o Hf).
  set (w1 := log_event _ (log_event _ w)).
  assert (counters w1 !! a = Some r) as Hr1 by exact Hr.
  step (run_load_counter w1 a r Hr1).
  destruct (decide _).
  - step (run_E_DELETE_Counter w1 a r Hr1). reflexivity.
  - step (run_update_counter w1 a r _ Hr1). reflexivity.
Qed.

Lemma GCWeakPtr_GetCount_attached (w : World) (h : GCWeakPtr) (a : nat) (r : GCCounter) :
  weak_mpCounter h = Some a →
  counters w !! a = Some r →
  GCWeakPtr_GetCount h w = Ok (count r, w).
Proof.
  intros E Hr. unfold GCWeakPtr_GetCount. rewrite E.
  step (run_load_counter w a r Hr). reflexivity.
Qed.






(** ** Collect *)

Lemma List_RemoveFast_middle {A} (pre post : list A) (u : A) :
  ∃ rest : list A,
    List_RemoveFast (pre ++ u :: post) (length pre) = Some (u, rest) ∧
    rest ≡ₚ pre ++ post.
Proof.
  unfold List_RemoveFast.
  rewrite list_lookup_middle by reflexivity.
  destruct post as [|y post _] using rev_ind.
  - rewrite last_snoc. eexists. split; [reflexivity|].
    rewrite length_app. simpl.
    destruct (decide _) as [_|N]; [|lia].
    rewrite take_app_length, app_nil_r. reflexivity.
  - replace (pre ++ u :: post ++ [y]) with ((pre ++ u :: post) ++ [y])
      by (rewrite <- app_assoc; reflexivity).
    rewrite last_snoc. eexists. split; [reflexivity|].
    rewrite length_app, Nat.add_1_r. simpl.
    rewrite take_app_length.
    destruct (decide _) as [E|_].
    { rewrite length_app in E. simpl in E. lia. }
    rewrite insert_app_r_alt by reflexivity.
    rewrite Nat.sub_diag. simpl.
    rewrite (Permutation_app_comm post [y]). reflexivity.
Qed.

Lemma Collect_loop_found `{BuildConfig} (w : World) (this : nat) (p : pointer)
    (pre post : list GCUniquePtr) (u : GCUniquePtr) (i : nat) :
  Forall (λ v, GCUniquePtr_op_eq_raw v p w = Ok (false, w)) pre →
  GCUniquePtr_op_eq_raw u p w = Ok (true, w) →
  Collect_loop this p (pre ++ u :: post) i w
    = mLiveList_RemoveFast this (i + length pre) w.
Proof.
  intros Hpre Hu. revert i.
  induction Hpre as [|v pre Hv _ IH]; intros i; simpl.
  - step Hu. rewrite Nat.add_0_r. reflexivity.
  - step Hv. rewrite IH. f_equal. lia.
Qed.

Lemma Collect_loop_not_found `{BuildConfig} (w : World) (this : nat) (p : pointer)
    (l : list GCUniquePtr) (i : nat) :
  Forall (λ v, GCUniquePtr_op_eq_raw v p w = Ok (false, w)) l →
  Collect_loop this p l i w = Fatal (AssertionFailed MEMORY_FACTORY_NOT_OWNED_OBJECT).
Proof.
  intros Hl. revert i.
  induction Hl as [|v l Hv _ IH]; intros i; simpl; [reflexivity|].
  step Hv. apply IH.
Qed.

Lemma run_store_factory (w : World) (c : nat) (f : GCConcreteFactory) :
  store_factory c f w = Ok (tt, set_factories <[c := f]> w).
Proof. reflexivity. Qed.

Lemma GCUniquePtr_dtor_attached `{BuildConfig} (w : World) (u : GCUniquePtr)
    (a : nat) (r : GCCounter) (o c : nat) (f : GCConcreteFactory) :
  unique_mpCounter u = Some a →
  counters w !! a = Some r →
  ptr r = Some o →
  pCollector r = Some c →
  factories w !! c = Some f →
  GCUniquePtr_dtor u w
    = Ok (tt,
          set_counters
            (if decide (count r = 0) then delete a else <[a := set_ptr nullptr r]>)
            (log_event (EvDeallocate (mpAllocator f) (Some o))
               (log_event (EvDestroy c (Some o)) w))).
Proof.
  intros E Hr P C Hf. unfold GCUniquePtr_dtor.
  step (GCUniquePtr_Reset_attached w u a r o c f E Hr P C Hf).
  reflexivity.
Qed.

Lemma GCConcreteFactory_Collect_found `{BuildConfig} (w : World) (this : nat)
    (f : GCConcreteFactory) (p : pointer) (pre post : list GCUniquePtr)
    (u : GCUniquePtr) :
  factories w !! this = Some f →
  mCleaningUp f = false →
  mLiveList f = pre ++ u :: post →
  Forall (λ v, GCUniquePtr_op_eq_raw v p w = Ok (false, w)) pre →
  GCUniquePtr_op_eq_raw u p w = Ok (true, w) →
  ∃ rest : list GCUniquePtr,
    List_RemoveFast (mLiveList f) (length pre) = Some (u, rest) ∧
    rest ≡ₚ pre ++ post ∧
    GCConcreteFactory_Collect this p w
      = GCUniquePtr_dtor u (set_factories <[this := set_mLiveList rest f]> w).
Proof.
  intros Hf Hc El Hpre Hu.
  destruct (List_RemoveFast_middle pre post u) as (rest & ER & Hperm).
  exists rest. rewrite El. split; [exact ER|]. split; [exact Hperm|].
  unfold GCConcreteFactory_Collect.
  rewrite (run_bind_Ok _ _ _ _ _ (run_load_factory w this f Hf)), Hc.
  rewrite El, (Collect_loop_found w this p pre post u 0 Hpre Hu).
  unfold mLiveList_RemoveFast.
  step (run_load_factory w this f Hf).
  rewrite El. simpl. rewrite ER.
  step (run_store_factory w this _). reflexivity.
Qed.

(** C3. [Collect] on a factory returns at once, with the store unchanged,
    while [mCleaningUp] is set. Otherwise it takes the first entry of the
    live list whose object pointer equals the argument out of the list
    (the entries that remain are the other entries, in some order) and
    destroys that entry; for an entry made by this factory it returns with
    the live count one lower. With no matching entry it stops on the
    assertion [MEMORY_FACTORY_NOT_OWNED_OBJECT]. *)
Theorem GCConcreteFactory_Collect_spec `{BuildConfig} (w : World) (this : nat)
    (f : GCConcreteFactory) (p : pointer) :
  factories w !! this = Some f →
  (mCleaningUp f = true → GCConcreteFactory_Collect this p w = Ok (tt, w)) ∧
  (mCleaningUp f = false →
   ∀ (pre post : list GCUniquePtr) (u : GCUniquePtr),
     mLiveList f = pre ++ u :: post →
     Forall (λ v, GCUniquePtr_op_eq_raw v p w = Ok (false, w)) pre →
     GCUniquePtr_op_eq_raw u p w = Ok (true, w) →
     ∃ rest : list GCUniquePtr,
       rest ≡ₚ pre ++ post ∧
       GCConcreteFactory_Collect this p w
         = GCUniquePtr_dtor u (set_factories <[this := set_mLiveList rest f]> w) ∧
       (∀ (a : nat) (r : GCCounter) (o : nat),
          unique_mpCounter u = Some a →
          counters w !! a = Some r →
          ptr r = Some o →
          pCollector r = Some this →
          ∃ w' : World,
            GCConcreteFactory_Collect this p w = Ok (tt, w') ∧
            factories w' = <[this := set_mLiveList rest f]> (factories w) ∧
            GCConcreteFactory_GetLiveCount this w'
              = Ok (Nat.pred (length (mLiveList f)), w') ∧
            trace w' = trace w ++ [EvDestroy this (Some o);
                                   EvDeallocate (mpAllocator f) (Some o)])) ∧
  (mCleaningUp f = false →
   Forall (λ v, GCUniquePtr_op_eq_raw v p w = Ok (false, w)) (mLiveList f) →
   GCConcreteFactory_Collect this p w
     = Fatal (AssertionFailed MEMORY_FACTORY_NOT_OWNED_OBJECT)).
Proof.
  intros Hf. split; [|split].
  - intros Hc. unfold GCConcreteFactory_Collect.
    rewrite (run_bind_Ok _ _ _ _ _ (run_load_factory w this f Hf)), Hc. reflexivity.
  - intros Hc pre post u El Hpre Hu.
    destruct (GCConcreteFactory_Collect_found w this f p pre post u Hf Hc El Hpre Hu)
      as (rest & _ & Hperm & EC).
    exists rest. split; [exact Hperm|]. split; [exact EC|].
    intros a r o Eu Hr P C. rewrite EC.
    set (w1 := set_factories _ w).
    assert (factories w1 !! this = Some (set_mLiveList rest f)) as Hf1
      by apply lookup_insert_eq.
    rewrite (GCUniquePtr_dtor_attached w1 u a r o this _ Eu Hr P C Hf1).
    eexists. split; [reflexivity|]. split; [reflexivity|]. split.
    + unfold GCConcreteFactory_GetLiveCount.
      set (w2 := set_counters _ _).
      assert (factories w2 !! this = Some (set_mLiveList rest f)) as Hf2 by exact Hf1.
      step (run_load_factory w2 this _ Hf2).
      simpl. unfold mret, M_ret, ret. repeat f_equal.
      rewrite Hperm, El, !length_app. simpl. lia.
    + simpl. rewrite <- app_assoc. reflexivity.
  - intros Hc Hall. unfold GCConcreteFactory_Collect.
    rewrite (run_bind_Ok _ _ _ _ _ (run_load_factory w this f Hf)), Hc.
    apply Collect_loop_not_found. exact Hall.
Qed.

Lemma GCConcreteFactory_Collect_spec_witness :
  @GCConcreteFactory_Collect DebugBuild 7%nat (Some 100%nat) (three_live_store true)
    = Ok (tt, three_live_store true) ∧
  (∃ w' : World,
     @GCConcreteFactory_Collect DebugBuild 7%nat (Some 100%nat) (three_live_store false)
       = Ok (tt, w') ∧
     GCConcreteFactory_GetLiveCount 7%nat w' = Ok (2%nat, w')) ∧
  @GCConcreteFactory_Collect DebugBuild 7%nat (Some 555%nat) (three_live_store false)
    = Fatal (AssertionFailed MEMORY_FACTORY_NOT_OWNED_OBJECT).
Proof.
  split; [|split].
  - destruct (@GCConcreteFactory_Collect_spec DebugBuild (three_live_store true) 7%nat
                _ (Some 100%nat) eq_refl) as (T & _ & _).
    apply T. reflexivity.
  - destruct (@GCConcreteFactory_Collect_spec DebugBuild (three_live_store false) 7%nat
                _ (Some 100%nat) eq_refl) as (_ & T & _).
    destruct (T eq_refl [] [mkGCUniquePtr (Some 1%nat); mkGCUniquePtr (Some 2%nat)]
                (mkGCUniquePtr (Some 0%nat)) eq_refl (Forall_nil_2 _) eq_refl)
      as (rest & _ & _ & R).
    destruct (R 0%nat {| count := 0; ptr := Some 100%nat; pCollector := Some 7%nat |}
                100%nat eq_refl eq_refl eq_refl eq_refl) as (w' & E & _ & L & _).
    exists w'. split; [exact E|exact L].
  - destruct (@GCConcreteFactory_Collect_spec DebugBuild (three_live_store false) 7%nat
                _ (Some 555%nat) eq_refl) as (_ & _ & T).
    apply T; [reflexivity|].
    repeat constructor.
Defined.

(** The removal does not keep the order: taking the first of three
    entries out moves the last one into its place. *)
Lemma GCConcreteFactory_Collect_moves_last :
  ∃ w' : World,
    @GCConcreteFactory_Collect DebugBuild 7%nat (Some 100%nat) (three_live_store false)
      = Ok (tt, w') ∧
    mLiveList <$> factories w' !! 7%nat
      = Some [mkGCUniquePtr (Some 2%nat); mkGCUniquePtr (Some 1%nat)].
Proof. eexists. split; vm_compute; reflexivity. Qed.

(** ** Create *)

Lemma run_E_NEW_T (w : World) (pa : pointer) :
  E_NEW_T pa w
    = Ok (next_allocation w,
          log_event (EvAllocate pa (next_allocation w))
            (set_allocator (tail (allocator w)) w)).
Proof. reflexivity. Qed.

Lemma fresh_counter_unused (w : World) : counters w !! fresh (dom (counters w)) = None.
Proof. apply not_elem_of_dom, is_fresh. Qed.

Lemma run_GCUniquePtr_ctor_raw `{BuildConfig} (w : World) (p : pointer) (c : nat) :
  E_DEBUG && negb (bool_decide (p ≠ nullptr)) = false →
  let a := fresh (dom (counters w)) in
  GCUniquePtr_ctor_raw p (Some c) w
    = Ok (mkGCUniquePtr (Some a),
          set_counters <[a := {| count := 0; ptr := p; pCollector := Some c |}]> w).
Proof.
  intros Hassert a. unfold GCUniquePtr_ctor_raw.
  step (run_E_ASSERT_passes _ _ w Hassert).
  rewrite bool_decide_eq_true_2 by discriminate.
  step (run_E_ASSERT_holds _ w).
  step (eq_refl : E_NEW_Counter w = Ok (a, _)).
  step (run_update_counter _ a _ _ (counters_set_counters_insert w a _)).
  rewrite set_counters_insert_insert.
  step (run_update_counter _ a _ _ (counters_set_counters_insert w a _)).
  rewrite set_counters_insert_insert.
  reflexivity.
Qed.

(** What [Create] does once the allocator has answered [p] and the
    assertion on [p] has been passed. *)
Lemma GCConcreteFactory_Create_registers `{BuildConfig} (w : World) (this : nat)
    (f : GCConcreteFactory) :
  factories w !! this = Some f →
  E_DEBUG && negb (bool_decide (next_allocation w ≠ nullptr)) = false →
  let a := fresh (dom (counters w)) in
  GCConcreteFactory_Create this w
    = Ok (mkGCWeakPtr (Some a),
          {| counters :=
               <[a := {| count := 1; ptr := next_allocation w; pCollector := Some this |}]>
                 (counters w);
             factories :=
               <[this := set_mLiveList (mLiveList f ++ [mkGCUniquePtr (Some a)]) f]>
                 (factories w);
             allocator := tail (allocator w);
             trace := trace w ++ [EvAllocate (mpAllocator f) (next_allocation w)] |}).
Proof.
  intros Hf Hassert a. unfold GCConcreteFactory_Create.
  step (run_load_factory w this f Hf).
  step (run_E_NEW_T w _).
  set (p := next_allocation w) in *.
  set (w1 := log_event _ _).
  step (run_E_ASSERT_passes _ _ w1 Hassert).
  assert (fresh (dom (counters w1)) = a) as Ea by reflexivity.
  pose proof (run_GCUniquePtr_ctor_raw w1 p this Hassert) as Hraw.
  cbv zeta in Hraw. rewrite Ea in Hraw.
  step Hraw.
  set (w2 := set_counters _ w1).
  assert (factories w2 !! this = Some f) as Hf2 by exact Hf.
  simpl.
  step (run_load_factory w2 this f Hf2).
  step (run_store_factory w2 this _).
  set (w3 := set_factories _ w2).
  step (eq_refl : GCUniquePtr_dtor GCUniquePtr_ctor w3 = Ok (tt, w3)).
  assert (factories w3 !! this
          = Some (set_mLiveList (mLiveList f ++ [mkGCUniquePtr (Some a)]) f)) as Hf3
    by apply lookup_insert_eq.
  step (run_load_factory w3 this _ Hf3).
  simpl. rewrite last_snoc.
  unfold GCWeakPtr_ctor_unique, GCWeakPtr_ctor_from. simpl.
  assert (counters w3 !! a
          = Some {| count := 0; ptr := p; pCollector := Some this |}) as Hr3
    by apply lookup_insert_eq.
  step (run_load_counter w3 a _ Hr3).
  unfold SafeCast. simpl ptr.
  step (run_E_ASSERT_passes _ _ w3 Hassert).
  unfold increment_count.
  step (run_update_counter w3 a _ _ Hr3).
  unfold mret, M_ret, ret. f_equal. f_equal.
  unfold set_counters, w3, w2, w1; simpl.
  rewrite insert_insert_eq. reflexivity.
Qed.




(** ** Life cycle through a fresh factory *)

Lemma GCWeakPtr_ctor_copy_attached (w : World) (h : GCWeakPtr) (a : nat) (r : GCCounter) :
  weak_mpCounter h = Some a →
  counters w !! a = Some r →
  GCWeakPtr_ctor_copy h w
    = Ok (mkGCWeakPtr (Some a),
          set_counters <[a := set_count (A32_incr (count r)) r]> w).
Proof.
  intros E Hr. unfold GCWeakPtr_ctor_copy, increment_count. rewrite E.
  step (run_update_counter w a r _ Hr). reflexivity.
Qed.

Lemma GCConcreteFactory_GetLiveCount_at (w : World) (this : nat) (f : GCConcreteFactory) :
  factories w !! this = Some f →
  GCConcreteFactory_GetLiveCount this w = Ok (length (mLiveList f), w).
Proof.
  intros Hf. unfold GCConcreteFactory_GetLiveCount.
  step (run_load_factory w this f Hf). reflexivity.
Qed.

Lemma GCUniquePtr_op_eq_raw_attached (w : World) (u : GCUniquePtr) (a : nat)
    (r : GCCounter) (p : pointer) :
  unique_mpCounter u = Some a →
  counters w !! a = Some r →
  GCUniquePtr_op_eq_raw u p w = Ok (bool_decide (ptr r = p), w).
Proof.
  intros E Hr. unfold GCUniquePtr_op_eq_raw. rewrite E.
  step (run_load_counter w a r Hr). reflexivity.
Qed.

(** C1. On a factory that has created nothing yet and whose allocator
    hands out the object [o]: [Create] returns a handle [h1] with count 1
    attached to [o]; the copy [h2] of [h1] is equal to [h1] and both read
    count 2; after the reset of [h1], [h2] reads count 1; the reset of [h2]
    invokes [Collect] once, which takes the entry out of the live list (the
    live count goes from 1 to 0) and invokes [Destroy] on [o] once. The
    counter record is freed and the factory is back in its initial
    state. *)
Theorem GCConcreteFactory_life_cycle `{BuildConfig} (w : World) (this : nat)
    (alloc : pointer) (o : nat) :
  factories w !! this = Some (GCConcreteFactory_ctor alloc) →
  next_allocation w = Some o →
  ∃ (h1 h2 : GCWeakPtr) (w1 w2 w3 w4 : World),
    GCConcreteFactory_Create this w = Ok (h1, w1) ∧
    GCWeakPtr_GetCount h1 w1 = Ok (1, w1) ∧
    GCWeakPtr_GetPtr h1 w1 = Ok (Some o, w1) ∧
    GCConcreteFactory_GetLiveCount this w1 = Ok (1%nat, w1) ∧
    GCWeakPtr_ctor_copy h1 w1 = Ok (h2, w2) ∧
    GCWeakPtr_op_eq h1 h2 w2 = Ok (true, w2) ∧
    GCWeakPtr_GetCount h1 w2 = Ok (2, w2) ∧
    GCWeakPtr_GetCount h2 w2 = Ok (2, w2) ∧
    GCWeakPtr_Reset h1 w2 = Ok (mkGCWeakPtr nullptr, w3) ∧
    GCWeakPtr_GetCount h2 w3 = Ok (1, w3) ∧
    GCConcreteFactory_GetLiveCount this w3 = Ok (1%nat, w3) ∧
    trace w3 = trace w1 ∧
    GCWeakPtr_Reset h2 w3 = Ok (mkGCWeakPtr nullptr, w4) ∧
    GCConcreteFactory_GetLiveCount this w4 = Ok (0%nat, w4) ∧
    trace w4 = trace w ++ [EvAllocate alloc (Some o); EvCollect this (Some o);
                           EvDestroy this (Some o); EvDeallocate alloc (Some o)] ∧
    count_events is_Collect (trace w4) = S (count_events is_Collect (trace w)) ∧
    count_events is_Destroy (trace w4) = S (count_events is_Destroy (trace w)) ∧
    counters w4 = counters w ∧
    factories w4 = factories w.
Proof.
  intros Hf Hn.
  assert (E_DEBUG && negb (bool_decide (next_allocation w ≠ nullptr)) = false) as Ha.
  { rewrite Hn, bool_decide_eq_true_2 by discriminate. apply andb_false_r. }
  pose proof (GCConcreteFactory_Create_registers w this _ Hf Ha) as HC.
  cbv zeta in HC. rewrite Hn in HC. simpl in HC.
  pose proof (fresh_counter_unused w) as Hfresh.
  set (a := fresh (dom (counters w))) in *.
  set (rec := λ n : Z, {| count := n; ptr := Some o; pCollector := Some this |}).
  set (f1 := {| mpAllocator := alloc; mLiveList := [mkGCUniquePtr (Some a)];
                mCleaningUp := false |}).
  set (h := mkGCWeakPtr (Some a)) in *.
  set (fs := <[this := f1]> (factories w)).
  set (t1 := trace w ++ [EvAllocate alloc (Some o)]).
  set (world := λ n : Z,
         {| counters := <[a := rec n]> (counters w); factories := fs;
            allocator := tail (allocator w); trace := t1 |}).
  change (GCConcreteFactory_Create this w = Ok (h, world 1)) in HC.
  assert (∀ n, counters (world n) !! a = Some (rec n)) as Hrec
    by (intros n; apply lookup_insert_eq).
  assert (∀ n, factories (world n) !! this = Some f1) as Hfs
    by (intros n; apply lookup_insert_eq).
  assert (∀ n m, set_counters <[a := rec m]> (world n) = world m) as Hset.
  { intros n m. unfold set_counters, world. simpl. rewrite insert_insert_eq. reflexivity. }
  set (w4 := {| counters := counters w; factories := factories w;
                allocator := tail (allocator w);
                trace := trace w ++ [EvAllocate alloc (Some o); EvCollect this (Some o);
                                     EvDestroy this (Some o);
                                     EvDeallocate alloc (Some o)] |}).
  exists h, h, (world 1), (world 2), (world 1), w4.
  split; [exact HC|].
  split; [apply (GCWeakPtr_GetCount_attached (world 1) h a (rec 1) eq_refl (Hrec 1))|].
  split; [apply (GCWeakPtr_GetPtr_attached (world 1) h a (rec 1) eq_refl (Hrec 1))|].
  split; [apply (GCConcreteFactory_GetLiveCount_at (world 1) this f1 (Hfs 1))|].
  split.
  { rewrite (GCWeakPtr_ctor_copy_attached (world 1) h a (rec 1) eq_refl (Hrec 1)).
    change (set_count (A32_incr (count (rec 1))) (rec 1)) with (rec 2).
    rewrite Hset. reflexivity. }
  split; [apply GCWeakPtr_op_eq_same; reflexivity|].
  split; [apply (GCWeakPtr_GetCount_attached (world 2) h a (rec 2) eq_refl (Hrec 2))|].
  split; [apply (GCWeakPtr_GetCount_attached (world 2) h a (rec 2) eq_refl (Hrec 2))|].
  split.
  { rewrite (GCWeakPtr_Reset_attached (world 2) h a (rec 2) eq_refl (Hrec 2)).
    cbv zeta.
    change (set_count (A32_decr (count (rec 2))) (rec 2)) with (rec 1).
    rewrite Hset. reflexivity. }
  split; [apply (GCWeakPtr_GetCount_attached (world 1) h a (rec 1) eq_refl (Hrec 1))|].
  split; [apply (GCConcreteFactory_GetLiveCount_at (world 1) this f1 (Hfs 1))|].
  split; [reflexivity|].
  assert (GCWeakPtr_Reset h (world 1) = Ok (mkGCWeakPtr nullptr, w4)) as HR.
  { rewrite (GCWeakPtr_Reset_attached (world 1) h a (rec 1) eq_refl (Hrec 1)).
    cbv zeta.
    change (set_count (A32_decr (count (rec 1))) (rec 1)) with (rec 0).
    rewrite Hset.
    change (count (rec 0)) with 0. change (ptr (rec 1)) with (Some o).
    change (pCollector (rec 1)) with (Some this).
    destruct (decide (0 = 0)) as [_|N]; [|contradiction].
    unfold IGarbageCollector_Collect.
    rewrite run_bind, run_bind. unfold modify_world. cbv beta iota.
    set (wc := log_event _ (world 0)).
    assert (factories wc !! this = Some f1) as Hfc by apply (Hfs 0).
    assert (counters wc !! a = Some (rec 0)) as Hrc by apply (Hrec 0).
    destruct (GCConcreteFactory_Collect_found wc this f1 (Some o) [] []
                (mkGCUniquePtr (Some a)) Hfc eq_refl eq_refl (Forall_nil_2 _))
      as (rest & ER & _ & EC).
    { rewrite (GCUniquePtr_op_eq_raw_attached wc (mkGCUniquePtr (Some a)) a (rec 0)
                 (Some o) eq_refl Hrc).
      rewrite bool_decide_eq_true_2 by reflexivity. reflexivity. }
    injection ER as <-. rewrite EC.
    set (wd := set_factories _ wc).
    assert (factories wd !! this = Some (set_mLiveList [] f1)) as Hfd
      by apply lookup_insert_eq.
    rewrite (GCUniquePtr_dtor_attached wd (mkGCUniquePtr (Some a)) a (rec 0) o this _
               eq_refl Hrc eq_refl eq_refl Hfd).
    unfold mret, M_ret, ret. f_equal. f_equal.
    unfold w4, set_counters, wd, wc, world, fs, t1; simpl.
    rewrite delete_insert_eq, (delete_id _ _ Hfresh).
    rewrite insert_insert_eq.
    rewrite (insert_id (factories w) this _ Hf).
    rewrite <- !app_assoc. reflexivity. }
  split; [exact HR|].
  split; [apply (GCConcreteFactory_GetLiveCount_at w4 this _ Hf)|].
  split; [reflexivity|].
  split; [unfold w4; simpl; rewrite count_events_app; simpl; lia|].
  split; [unfold w4; simpl; rewrite count_events_app; simpl; lia|].
  split; reflexivity.
Qed.

Lemma GCConcreteFactory_life_cycle_witness :
  ∃ (h1 h2 : GCWeakPtr) (w1 w2 w3 w4 : World),
    @GCConcreteFactory_Create DebugBuild 7%nat fresh_factory_store = Ok (h1, w1) ∧
    GCWeakPtr_GetCount h1 w1 = Ok (1, w1) ∧
    GCWeakPtr_ctor_copy h1 w1 = Ok (h2, w2) ∧
    GCWeakPtr_op_eq h1 h2 w2 = Ok (true, w2) ∧
    GCWeakPtr_GetCount h1 w2 = Ok (2, w2) ∧
    GCWeakPtr_GetCount h2 w2 = Ok (2, w2) ∧
    @GCWeakPtr_Reset DebugBuild h1 w2 = Ok (mkGCWeakPtr nullptr, w3) ∧
    GCWeakPtr_GetCount h2 w3 = Ok (1, w3) ∧
    GCConcreteFactory_GetLiveCount 7%nat w3 = Ok (1%nat, w3) ∧
    @GCWeakPtr_Reset DebugBuild h2 w3 = Ok (mkGCWeakPtr nullptr, w4) ∧
    GCConcreteFactory_GetLiveCount 7%nat w4 = Ok (0%nat, w4) ∧
    trace w4 = [EvAllocate (Some 3%nat) (Some 100%nat); EvCollect 7 (Some 100%nat);
                EvDestroy 7 (Some 100%nat); EvDeallocate (Some 3%nat) (Some 100%nat)].
Proof.
  destruct (@GCConcreteFactory_life_cycle DebugBuild fresh_factory_store 7%nat
              (Some 3%nat) 100%nat eq_refl eq_refl)
    as (h1 & h2 & w1 & w2 & w3 & w4 & C & G1 & _ & _ & K & E & G2 & G3 & R1 & G4
        & L3 & _ & R2 & L4 & T & _).
  exists h1, h2, w1, w2, w3, w4.
  repeat (split; [assumption|]). exact T.
Defined.

(** * Further properties of the handles and the factory *)

(** ** Comparisons *)

(** Closes [mret b w = Ok (b', w)] where [b] and [b'] decide the same
    proposition through different instances. *)
Ltac same_result :=
  unfold mret, M_ret, ret;
  first [reflexivity | do 2 f_equal; apply bool_decide_ext; reflexivity].

(** X1. [GCWeakPtr::operator==] is symmetric on every pair of handles and
    every store, faults included. *)
Theorem GCWeakPtr_op_eq_sym (w : World) (h1 h2 : GCWeakPtr) :
  GCWeakPtr_op_eq h1 h2 w = GCWeakPtr_op_eq h2 h1 w.
Proof.
  unfold GCWeakPtr_op_eq.
  destruct (weak_mpCounter h1) as [a1|], (weak_mpCounter h2) as [a2|];
    repeat (destruct (decide _) as [?|?]); simplify_eq; reflexivity.
Qed.

(** X2. [GCWeakPtr::operator==] is not transitive: two handles attached to
    different records whose objects are gone are both equal to an empty
    handle, and not equal to each other. *)
Theorem GCWeakPtr_op_eq_not_transitive (w : World) (a1 a2 : nat) (r1 r2 : GCCounter) :
  a1 ≠ a2 →
  counters w !! a1 = Some r1 → ptr r1 = nullptr →
  counters w !! a2 = Some r2 → ptr r2 = nullptr →
  GCWeakPtr_op_eq (mkGCWeakPtr (Some a1)) GCWeakPtr_ctor w = Ok (true, w) ∧
  GCWeakPtr_op_eq GCWeakPtr_ctor (mkGCWeakPtr (Some a2)) w = Ok (true, w) ∧
  GCWeakPtr_op_eq (mkGCWeakPtr (Some a1)) (mkGCWeakPtr (Some a2)) w = Ok (false, w).
Proof.
  intros N H1 P1 H2 P2. split; [|split].
  - unfold GCWeakPtr_op_eq. simpl.
    repeat (destruct (decide _) as [?|?]; simplify_eq).
    step (run_load_counter w a1 r1 H1). rewrite P1. reflexivity.
  - unfold GCWeakPtr_op_eq. simpl.
    repeat (destruct (decide _) as [?|?]; simplify_eq).
    step (run_load_counter w a2 r2 H2). rewrite P2. reflexivity.
  - apply (GCWeakPtr_op_eq_distinct_records w (mkGCWeakPtr (Some a1))
             (mkGCWeakPtr (Some a2)) a1 a2); [reflexivity|reflexivity|exact N].
Qed.

Lemma GCWeakPtr_op_eq_not_transitive_witness :
  GCWeakPtr_op_eq (mkGCWeakPtr (Some 0%nat)) GCWeakPtr_ctor expired_store
    = Ok (true, expired_store) ∧
  GCWeakPtr_op_eq GCWeakPtr_ctor (mkGCWeakPtr (Some 1%nat)) expired_store
    = Ok (true, expired_store) ∧
  GCWeakPtr_op_eq (mkGCWeakPtr (Some 0%nat)) (mkGCWeakPtr (Some 1%nat)) expired_store
    = Ok (false, expired_store).
Proof.
  apply (GCWeakPtr_op_eq_not_transitive expired_store 0%nat 1%nat
           {| count := 1; ptr := nullptr; pCollector := Some 7%nat |}
           {| count := 1; ptr := nullptr; pCollector := Some 7%nat |});
    [discriminate|reflexivity..].
Defined.

(** X3. The four ways of asking a weak handle whether it refers to an
    object agree with [GetPtr]: for a handle that is empty or attached to
    an allocated record, comparison with the null raw pointer and
    comparison with an empty handle yield true exactly when [GetPtr] is
    null, and [operator!=] against null and the conversion to [bool] yield
    the opposite. An attached handle whose object is gone therefore converts
    to false although its count is not zero. *)
Theorem GCWeakPtr_null_tests_agree (w : World) (h : GCWeakPtr) :
  (∀ a, weak_mpCounter h = Some a → is_Some (counters w !! a)) →
  ∃ p : pointer,
    GCWeakPtr_GetPtr h w = Ok (p, w) ∧
    GCWeakPtr_op_eq_raw h nullptr w = Ok (bool_decide (p = nullptr), w) ∧
    GCWeakPtr_op_eq h GCWeakPtr_ctor w = Ok (bool_decide (p = nullptr), w) ∧
    GCWeakPtr_op_eq GCWeakPtr_ctor h w = Ok (bool_decide (p = nullptr), w) ∧
    GCWeakPtr_op_ne_raw h nullptr w = Ok (negb (bool_decide (p = nullptr)), w) ∧
    GCWeakPtr_op_bool h w = Ok (negb (bool_decide (p = nullptr)), w).
Proof.
  intros A. destruct h as [[a|]].
  - destruct (A a eq_refl) as [r Hr]. exists (ptr r).
    assert (GCWeakPtr_op_eq_raw (mkGCWeakPtr (Some a)) nullptr w
            = Ok (bool_decide (ptr r = nullptr), w)) as E.
    { unfold GCWeakPtr_op_eq_raw. simpl. step (run_load_counter w a r Hr).
      same_result. }
    assert (GCWeakPtr_op_eq (mkGCWeakPtr (Some a)) GCWeakPtr_ctor w
            = Ok (bool_decide (ptr r = nullptr), w)) as E2.
    { unfold GCWeakPtr_op_eq. simpl.
      repeat (destruct (decide _) as [?|?]; simplify_eq).
      step (run_load_counter w a r Hr).
      same_result. }
    split; [apply (GCWeakPtr_GetPtr_attached w (mkGCWeakPtr (Some a)) a r eq_refl Hr)|].
    split; [exact E|]. split; [exact E2|].
    split; [rewrite GCWeakPtr_op_eq_sym; exact E2|].
    unfold GCWeakPtr_op_bool, GCWeakPtr_op_ne_raw. step E. split; reflexivity.
  - exists nullptr. repeat split; reflexivity.
Qed.

Lemma GCWeakPtr_null_tests_agree_witness :
  ∃ p : pointer,
    GCWeakPtr_GetPtr (mkGCWeakPtr (Some 0%nat)) expired_store = Ok (p, expired_store) ∧
    GCWeakPtr_GetCount (mkGCWeakPtr (Some 0%nat)) expired_store = Ok (1, expired_store) ∧
    GCWeakPtr_op_bool (mkGCWeakPtr (Some 0%nat)) expired_store
      = Ok (negb (bool_decide (p = nullptr)), expired_store).
Proof.
  destruct (GCWeakPtr_null_tests_agree expired_store (mkGCWeakPtr (Some 0%nat)))
    as (p & G & _ & _ & _ & _ & B).
  - simpl. intros a E. injection E as <-. vm_compute. eauto.
  - exists p. split; [exact G|]. split; [reflexivity|exact B].
Defined.

(** X4. For owning handles [operator!=] is written on its own, and is the
    negation of [operator==] on every input: both against another handle
    (where both read through a null [mpCounter] when the two handles are
    empty) and against a raw pointer. *)
Theorem GCUniquePtr_op_ne_negates_op_eq (w : World) (u1 u2 : GCUniquePtr) (p : pointer) :
  GCUniquePtr_op_ne u1 u2 w = (b ← GCUniquePtr_op_eq u1 u2; mret (negb b)) w ∧
  GCUniquePtr_op_ne_raw u1 p w = (b ← GCUniquePtr_op_eq_raw u1 p; mret (negb b)) w.
Proof.
  split.
  - unfold GCUniquePtr_op_ne, GCUniquePtr_op_eq.
    destruct (decide _) as [E|N]; [|reflexivity].
    rewrite !run_bind.
    destruct (load_counter (unique_mpCounter u1) w) as [[r1 w1]|f]; [|reflexivity].
    rewrite !run_bind.
    destruct (load_counter (unique_mpCounter u2) w1) as [[r2 w2]|f]; [|reflexivity].
    unfold mret, M_ret, ret. rewrite bool_decide_not. reflexivity.
  - unfold GCUniquePtr_op_ne_raw, GCUniquePtr_op_eq_raw.
    destruct (unique_mpCounter u1) as [a|].
    + rewrite !run_bind.
      destruct (load_counter (Some a) w) as [[r1 w1]|f]; [|reflexivity].
      unfold mret, M_ret, ret. rewrite bool_decide_not. reflexivity.
    + unfold mret, M_ret, ret. rewrite run_bind. simpl.
      rewrite bool_decide_not. reflexivity.
Qed.

(** ** Copies, assignment and scopes *)

Lemma World_eta (w : World) :
  {| counters := counters w; factories := factories w;
     allocator := allocator w; trace := trace w |} = w.
Proof. destruct w. reflexivity. Qed.

Lemma set_counters_insert_id (w : World) (a : nat) (r : GCCounter) :
  counters w !! a = Some r → set_counters <[a := r]> w = w.
Proof.
  intros Hr. unfold set_counters. rewrite (insert_id _ _ _ Hr). apply World_eta.
Qed.

Lemma set_counters_delete_fresh (w : World) (a : nat) (r : GCCounter) :
  counters w !! a = None → set_counters (delete a) (set_counters <[a := r]> w) = w.
Proof.
  intros Hr. unfold set_counters. simpl.
  rewrite (delete_insert_id _ _ _ Hr). apply World_eta.
Qed.

Lemma set_count_same (r : GCCounter) : set_count (count r) r = r.
Proof. destruct r. reflexivity. Qed.

Lemma A32_decr_incr (n : Z) : 0 ≤ n < A32_modulus → A32_decr (A32_incr n) = n.
Proof.
  intros Hn. unfold A32_decr, A32_incr.
  rewrite Zminus_mod_idemp_l.
  replace (n + 1 - 1) with n by lia. apply Z.mod_small. exact Hn.
Qed.

Lemma GCWeakPtr_copy_then_Reset `{BuildConfig} (w : World) (a : nat) (r : GCCounter) :
  counters w !! a = Some r →
  0 < count r < A32_modulus →
  GCWeakPtr_Reset (mkGCWeakPtr (Some a))
      (set_counters <[a := set_count (A32_incr (count r)) r]> w)
    = Ok (mkGCWeakPtr nullptr, w).
Proof.
  intros Hr Hn.
  rewrite (GCWeakPtr_Reset_attached _ (mkGCWeakPtr (Some a)) a _ eq_refl
             (counters_set_counters_insert w a _)).
  cbv zeta. simpl count. rewrite A32_decr_incr by lia.
  destruct (decide _) as [Z|_]; [simpl in Z; lia|].
  rewrite set_counters_insert_insert.
  replace (set_count (count r) (set_count (A32_incr (count r)) r)) with r
    by (destruct r; reflexivity).
  rewrite (set_counters_insert_id w a r Hr). reflexivity.
Qed.

Lemma run_GCWeakPtr_dtor `{BuildConfig} (w w' : World) (h h' : GCWeakPtr) :
  GCWeakPtr_Reset h w = Ok (h', w') → GCWeakPtr_dtor h w = Ok (tt, w').
Proof. intros E. unfold GCWeakPtr_dtor. step E. reflexivity. Qed.

(** X5. Copying a weak handle and resetting the copy is a round trip: for
    a handle attached to a record whose count is between 1 and 2^32 - 1,
    the copy compares equal to the original, and its reset gives back
    exactly the store from before the copy (no callback, nothing freed). *)
Theorem GCWeakPtr_copy_Reset_round_trip `{BuildConfig} (w : World) (h : GCWeakPtr)
    (a : nat) (r : GCCounter) :
  weak_mpCounter h = Some a →
  counters w !! a = Some r →
  0 < count r < A32_modulus →
  ∃ (h2 : GCWeakPtr) (w1 : World),
    GCWeakPtr_ctor_copy h w = Ok (h2, w1) ∧
    GCWeakPtr_GetCount h w1 = Ok (A32_incr (count r), w1) ∧
    GCWeakPtr_op_eq h h2 w1 = Ok (true, w1) ∧
    GCWeakPtr_Reset h2 w1 = Ok (mkGCWeakPtr nullptr, w).
Proof.
  intros E Hr Hn.
  exists (mkGCWeakPtr (Some a)),
         (set_counters <[a := set_count (A32_incr (count r)) r]> w).
  split; [apply (GCWeakPtr_ctor_copy_attached w h a r E Hr)|].
  split; [apply (GCWeakPtr_GetCount_attached _ h a
                   (set_count (A32_incr (count r)) r) E
                   (counters_set_counters_insert w a _))|].
  split; [apply GCWeakPtr_op_eq_same; exact E|].
  apply (GCWeakPtr_copy_then_Reset w a r Hr Hn).
Qed.

Lemma GCWeakPtr_copy_Reset_round_trip_witness :
  ∃ (h2 : GCWeakPtr) (w1 : World),
    GCWeakPtr_ctor_copy (mkGCWeakPtr (Some 1%nat)) busy_store = Ok (h2, w1) ∧
    GCWeakPtr_GetCount (mkGCWeakPtr (Some 1%nat)) w1 = Ok (3, w1) ∧
    @GCWeakPtr_Reset DebugBuild h2 w1 = Ok (mkGCWeakPtr nullptr, busy_store).
Proof.
  destruct (@GCWeakPtr_copy_Reset_round_trip DebugBuild busy_store
              (mkGCWeakPtr (Some 1%nat)) 1%nat
              {| count := 2; ptr := Some 101%nat; pCollector := Some 7%nat |}
              eq_refl eq_refl ltac:(vm_compute; split; reflexivity))
    as (h2 & w1 & C & G & _ & R).
  exists h2, w1. split; [exact C|]. split; [exact G|exact R].
Defined.

(** X6. Self-assignment of a weak handle is safe: for a handle that is
    empty, or attached to a record whose count is between 1 and 2^32 - 1,
    [h = h] returns the same handle and leaves the store exactly as it
    was. *)
Theorem GCWeakPtr_op_assign_self `{BuildConfig} (w : World) (h : GCWeakPtr) :
  (∀ a, weak_mpCounter h = Some a →
        ∃ r, counters w !! a = Some r ∧ 0 < count r < A32_modulus) →
  GCWeakPtr_op_assign h h w = Ok (h, w).
Proof.
  intros A. destruct h as [[a|]]; [|reflexivity].
  destruct (A a eq_refl) as (r & Hr & Hn).
  unfold GCWeakPtr_op_assign.
  step (GCWeakPtr_ctor_copy_attached w (mkGCWeakPtr (Some a)) a r eq_refl Hr).
  simpl.
  step (run_GCWeakPtr_dtor _ _ _ _ (GCWeakPtr_copy_then_Reset w a r Hr Hn)).
  reflexivity.
Qed.

Lemma GCWeakPtr_op_assign_self_witness :
  @GCWeakPtr_op_assign DebugBuild (mkGCWeakPtr (Some 0%nat)) (mkGCWeakPtr (Some 0%nat))
      busy_store
    = Ok (mkGCWeakPtr (Some 0%nat), busy_store).
Proof.
  apply (@GCWeakPtr_op_assign_self DebugBuild busy_store (mkGCWeakPtr (Some 0%nat))).
  simpl. intros a E. injection E as <-.
  exists {| count := 1; ptr := Some 100%nat; pCollector := Some 7%nat |}.
  split; [reflexivity|]. vm_compute. split; reflexivity.
Defined.

(** X7. Assignment rebinds a weak handle: when the handle is attached to
    one record and the source to another, and the handle is not the last
    one on its record, [this = other] returns a handle on the record of
    [other], adds one to the count of that record, takes one from the count
    of the old record and changes nothing else. Assigning an empty handle
    is a [Reset]. *)
Theorem GCWeakPtr_op_assign_rebinds `{BuildConfig} (w : World) (this other : GCWeakPtr)
    (a1 a2 : nat) (r1 r2 : GCCounter) :
  weak_mpCounter this = Some a1 →
  weak_mpCounter other = Some a2 →
  a1 ≠ a2 →
  counters w !! a1 = Some r1 →
  counters w !! a2 = Some r2 →
  A32_decr (count r1) ≠ 0 →
  GCWeakPtr_op_assign this other w
    = Ok (mkGCWeakPtr (Some a2),
          set_counters
            (λ m, <[a1 := set_count (A32_decr (count r1)) r1]>
                    (<[a2 := set_count (A32_incr (count r2)) r2]> m)) w) ∧
  GCWeakPtr_op_assign this GCWeakPtr_ctor w
    = (GCWeakPtr_Reset this;; mret GCWeakPtr_ctor) w.
Proof.
  intros E1 E2 N H1 H2 NZ. split.
  - unfold GCWeakPtr_op_assign.
    step (GCWeakPtr_ctor_copy_attached w other a2 r2 E2 H2).
    simpl. rewrite E1. unfold GCWeakPtr_dtor.
    set (w1 := set_counters _ w).
    assert (counters w1 !! a1 = Some r1) as H1'
      by (simpl; rewrite lookup_insert_ne by congruence; exact H1).
    rewrite run_bind, run_bind.
    rewrite (GCWeakPtr_Reset_attached w1 (mkGCWeakPtr (Some a1)) a1 r1 eq_refl H1').
    cbv zeta. destruct (decide _) as [Z|_]; [simpl in Z; contradiction|].
    reflexivity.
  - unfold GCWeakPtr_op_assign. simpl. unfold GCWeakPtr_dtor.
    rewrite !run_bind. simpl.
    replace (mkGCWeakPtr (weak_mpCounter this)) with this by (destruct this; reflexivity).
    rewrite !run_bind.
    destruct (GCWeakPtr_Reset this w) as [[h' w']|f]; reflexivity.
Qed.

Lemma GCWeakPtr_op_assign_rebinds_witness :
  ∃ w' : World,
    @GCWeakPtr_op_assign DebugBuild (mkGCWeakPtr (Some 1%nat)) (mkGCWeakPtr (Some 0%nat))
        busy_store
      = Ok (mkGCWeakPtr (Some 0%nat), w') ∧
    GCWeakPtr_GetCount (mkGCWeakPtr (Some 0%nat)) w' = Ok (2, w') ∧
    GCWeakPtr_GetCount (mkGCWeakPtr (Some 1%nat)) w' = Ok (1, w').
Proof.
  destruct (@GCWeakPtr_op_assign_rebinds DebugBuild busy_store
              (mkGCWeakPtr (Some 1%nat)) (mkGCWeakPtr (Some 0%nat)) 1%nat 0%nat
              {| count := 2; ptr := Some 101%nat; pCollector := Some 7%nat |}
              {| count := 1; ptr := Some 100%nat; pCollector := Some 7%nat |}
              eq_refl eq_refl ltac:(discriminate) eq_refl eq_refl ltac:(discriminate))
    as [R _].
  eexists. split; [exact R|]. split; vm_compute; reflexivity.
Defined.

Lemma run_GCWeakPtr_ctor_from `{BuildConfig} (w : World) (a : nat) (r : GCCounter) :
  counters w !! a = Some r →
  E_DEBUG && negb (bool_decide (ptr r ≠ nullptr)) = false →
  GCWeakPtr_ctor_from (Some a) w
    = Ok (mkGCWeakPtr (Some a),
          set_counters <[a := set_count (A32_incr (count r)) r]> w).
Proof.
  intros Hr Hassert. unfold GCWeakPtr_ctor_from.
  step (run_load_counter w a r Hr).
  unfold SafeCast. step (run_E_ASSERT_passes _ _ w Hassert).
  unfold increment_count. step (run_update_counter w a r _ Hr). reflexivity.
Qed.

(** X8. The record of a [GCThisPtr] lives exactly as long as the scope
    and its observers. With no observer, construction followed by
    destruction gives back the store it started from. With an observer
    that is reset inside the scope, the same holds. With an observer that
    outlives the scope, the observer stays attached with count 1, resolves
    to the null pointer, and its reset frees the record and gives back the
    original store. No callback is ever invoked. *)
Theorem GCThisPtr_scope `{BuildConfig} (w : World) (o : nat) :
  (t ← GCThisPtr_ctor (Some o); GCThisPtr_dtor t) w = Ok (tt, w) ∧
  (t ← GCThisPtr_ctor (Some o);
   h ← GCWeakPtr_ctor_this t;
   GCWeakPtr_Reset h;;
   GCThisPtr_dtor t) w = Ok (tt, w) ∧
  ∃ (h : GCWeakPtr) (w' : World),
    (t ← GCThisPtr_ctor (Some o);
     h ← GCWeakPtr_ctor_this t;
     GCThisPtr_dtor t;;
     mret h) w = Ok (h, w') ∧
    GCWeakPtr_GetCount h w' = Ok (1, w') ∧
    GCWeakPtr_GetPtr h w' = Ok (nullptr, w') ∧
    GCWeakPtr_Reset h w' = Ok (mkGCWeakPtr nullptr, w).
Proof.
  pose proof (fresh_counter_unused w) as Hfresh.
  pose proof (GCThisPtr_ctor_record w (Some o)) as HC. cbv zeta in HC.
  set (a := fresh (dom (counters w))) in *.
  set (rec := λ (n : Z) (p : pointer), {| count := n; ptr := p; pCollector := nullptr |}).
  set (world := λ (n : Z) (p : pointer), set_counters <[a := rec n p]> w).
  change (GCThisPtr_ctor (Some o) w = Ok (mkGCThisPtr (Some a), world 0 (Some o))) in HC.
  assert (∀ n p, counters (world n p) !! a = Some (rec n p)) as Hrec
    by (intros; apply lookup_insert_eq).
  assert (∀ n p m q, set_counters <[a := rec m q]> (world n p) = world m q) as Hset
    by (intros; apply set_counters_insert_insert).
  assert (∀ n p, set_counters (delete a) (world n p) = w) as Hdel
    by (intros; apply set_counters_delete_fresh; exact Hfresh).
  assert (GCWeakPtr_ctor_this (mkGCThisPtr (Some a)) (world 0 (Some o))
          = Ok (mkGCWeakPtr (Some a), world 1 (Some o))) as HA.
  { unfold GCWeakPtr_ctor_this. simpl this_mpCounter.
    rewrite (run_GCWeakPtr_ctor_from _ a _ (Hrec 0 (Some o))).
    - change (set_count (A32_incr (count (rec 0 (Some o)))) (rec 0 (Some o)))
        with (rec 1 (Some o)).
      rewrite Hset. reflexivity.
    - simpl ptr. rewrite bool_decide_eq_true_2 by discriminate. apply andb_false_r. }
  split; [|split].
  - step HC.
    rewrite (GCThisPtr_dtor_attached _ (mkGCThisPtr (Some a)) a _ eq_refl (Hrec 0 (Some o))).
    simpl. rewrite Hdel. reflexivity.
  - step HC. step HA.
    assert (GCWeakPtr_Reset (mkGCWeakPtr (Some a)) (world 1 (Some o))
            = Ok (mkGCWeakPtr nullptr, world 0 (Some o))) as HR.
    { rewrite (GCWeakPtr_Reset_attached _ (mkGCWeakPtr (Some a)) a _ eq_refl (Hrec 1 (Some o))).
      cbv zeta.
      change (set_count (A32_decr (count (rec 1 (Some o)))) (rec 1 (Some o)))
        with (rec 0 (Some o)).
      rewrite Hset. reflexivity. }
    step HR.
    rewrite (GCThisPtr_dtor_attached _ (mkGCThisPtr (Some a)) a _ eq_refl (Hrec 0 (Some o))).
    simpl. rewrite Hdel. reflexivity.
  - exists (mkGCWeakPtr (Some a)), (world 1 nullptr).
    split.
    { step HC. step HA.
      assert (GCThisPtr_dtor (mkGCThisPtr (Some a)) (world 1 (Some o))
              = Ok (tt, world 1 nullptr)) as HD.
      { rewrite (GCThisPtr_dtor_attached _ (mkGCThisPtr (Some a)) a _ eq_refl (Hrec 1 (Some o))).
        simpl. change (set_ptr nullptr (rec 1 (Some o))) with (rec 1 nullptr).
        rewrite Hset. reflexivity. }
      step HD. reflexivity. }
    split; [apply (GCWeakPtr_GetCount_attached _ (mkGCWeakPtr (Some a)) a
                     (rec 1 nullptr) eq_refl (Hrec 1 nullptr))|].
    split; [apply (GCWeakPtr_GetPtr_attached _ (mkGCWeakPtr (Some a)) a
                     (rec 1 nullptr) eq_refl (Hrec 1 nullptr))|].
    rewrite (GCWeakPtr_Reset_attached _ (mkGCWeakPtr (Some a)) a _ eq_refl
               (Hrec 1 nullptr)).
    cbv zeta. simpl. rewrite Hdel. reflexivity.
Qed.

(** ** Owning handles used directly *)

Lemma run_GCUniquePtr_ctor_raw_unchecked `{BuildConfig} (w : World) (p pc : pointer) :
  E_DEBUG = false →
  let a := fresh (dom (counters w)) in
  GCUniquePtr_ctor_raw p pc w
    = Ok (mkGCUniquePtr (Some a),
          set_counters <[a := {| count := 0; ptr := p; pCollector := pc |}]> w).
Proof.
  intros D a. unfold GCUniquePtr_ctor_raw.
  assert (∀ b, E_DEBUG && negb b = false) as Hoff by (intros b; rewrite D; reflexivity).
  step (run_E_ASSERT_passes _ _ w (Hoff _)).
  step (run_E_ASSERT_passes _ _ w (Hoff _)).
  step (eq_refl : E_NEW_Counter w = Ok (a, _)).
  step (run_update_counter _ a _ _ (counters_set_counters_insert w a _)).
  rewrite set_counters_insert_insert.
  step (run_update_counter _ a _ _ (counters_set_counters_insert w a _)).
  rewrite set_counters_insert_insert.
  reflexivity.
Qed.

(** X9. An owning handle built over an object and reset while nobody
    observes it invokes [Destroy] on its collector exactly once, frees its
    record, and leaves every other part of the store as it was. Built with
    a null collector, the constructor stops on its assertion when
    assertions are compiled in; when they are not, the later [Reset] calls
    through the null collector. *)
Theorem GCUniquePtr_owner_life_cycle `{BuildConfig} (w : World) (c : nat)
    (f : GCConcreteFactory) (o : nat) :
  factories w !! c = Some f →
  (u ← GCUniquePtr_ctor_raw (Some o) (Some c); GCUniquePtr_Reset u) w
    = Ok (mkGCUniquePtr nullptr,
          log_event (EvDeallocate (mpAllocator f) (Some o))
            (log_event (EvDestroy c (Some o)) w)) ∧
  (u ← GCUniquePtr_ctor_raw (Some o) nullptr; GCUniquePtr_Reset u) w
    = Fatal (if E_DEBUG then AssertionFailed ASSERT_PTR else NullDereference).
Proof.
  intros Hf. pose proof (fresh_counter_unused w) as Hfresh. split.
  - assert (E_DEBUG && negb (bool_decide (Some o ≠ nullptr)) = false) as Ha.
    { rewrite bool_decide_eq_true_2 by discriminate. apply andb_false_r. }
    pose proof (run_GCUniquePtr_ctor_raw w (Some o) c Ha) as HC. cbv zeta in HC.
    set (a := fresh (dom (counters w))) in *.
    step HC.
    rewrite (GCUniquePtr_Reset_attached _ (mkGCUniquePtr (Some a)) a
               {| count := 0; ptr := Some o; pCollector := Some c |} o c f eq_refl
               (counters_set_counters_insert w a _) eq_refl eq_refl Hf).
    simpl. unfold set_counters, log_event. simpl.
    rewrite (delete_insert_id _ _ _ Hfresh). reflexivity.
  - destruct E_DEBUG eqn:D.
    + unfold GCUniquePtr_ctor_raw. rewrite !run_bind.
      rewrite bool_decide_eq_true_2 by discriminate.
      rewrite run_E_ASSERT_holds.
      unfold E_ASSERT. rewrite D.
      rewrite bool_decide_eq_false_2 by (intros N; apply N; reflexivity).
      reflexivity.
    + pose proof (run_GCUniquePtr_ctor_raw_unchecked w (Some o) nullptr D) as HC.
      cbv zeta in HC. step HC.
      unfold GCUniquePtr_Reset. cbn [unique_mpCounter].
      step (run_load_counter _ _ _ (counters_set_counters_insert w _ _)).
      reflexivity.
Qed.

Lemma GCUniquePtr_owner_life_cycle_witness :
  (u ← @GCUniquePtr_ctor_raw DebugBuild (Some 555%nat) (Some 7%nat);
   @GCUniquePtr_Reset DebugBuild u) busy_store
    = Ok (mkGCUniquePtr nullptr,
          log_event (EvDeallocate (Some 3%nat) (Some 555%nat))
            (log_event (EvDestroy 7%nat (Some 555%nat)) busy_store)).
Proof.
  apply (@GCUniquePtr_owner_life_cycle DebugBuild busy_store 7%nat
           {| mpAllocator := Some 3%nat;
              mLiveList := [mkGCUniquePtr (Some 0%nat); mkGCUniquePtr (Some 1%nat)];
              mCleaningUp := false |} 555%nat eq_refl).
Defined.

Lemma GCUniquePtr_op_eq_raw_frame (w w' : World) (v : GCUniquePtr) (p : pointer) (b : bool) :
  GCUniquePtr_op_eq_raw v p w = Ok (b, w) →
  (∀ x r, unique_mpCounter v = Some x → counters w !! x = Some r →
          ∃ r', counters w' !! x = Some r' ∧ ptr r' = ptr r) →
  GCUniquePtr_op_eq_raw v p w' = Ok (b, w').
Proof.
  unfold GCUniquePtr_op_eq_raw. destruct (unique_mpCounter v) as [x|].
  - rewrite run_bind. unfold load_counter.
    destruct (counters w !! x) as [r|] eqn:Hx; [|discriminate].
    intros [= <-] Hfr.
    destruct (Hfr x r eq_refl Hx) as (r' & Hx' & P).
    step (run_load_counter w' x r' Hx'). rewrite P. reflexivity.
  - intros [= <-] _. reflexivity.
Qed.

(** X10. An object owned through a handle that was not made by
    [Create] cannot be collected by the factory: when an owning handle is
    built by hand over an object with a factory as its collector, and the
    live list of that factory has no entry for the object, the reset of the
    only weak handle attached to it calls [Collect], which finds no entry
    and stops on the assertion [MEMORY_FACTORY_NOT_OWNED_OBJECT]. *)
Theorem GCUniquePtr_outside_factory_not_collectable `{BuildConfig} (w : World)
    (c : nat) (f : GCConcreteFactory) (o : nat) :
  factories w !! c = Some f →
  mCleaningUp f = false →
  Forall (λ v, GCUniquePtr_op_eq_raw v (Some o) w = Ok (false, w)) (mLiveList f) →
  (u ← GCUniquePtr_ctor_raw (Some o) (Some c);
   h ← GCWeakPtr_ctor_unique u;
   GCWeakPtr_Reset h) w
    = Fatal (AssertionFailed MEMORY_FACTORY_NOT_OWNED_OBJECT).
Proof.
  intros Hf Hc Hall. pose proof (fresh_counter_unused w) as Hfresh.
  assert (E_DEBUG && negb (bool_decide (Some o ≠ nullptr)) = false) as Ha.
  { rewrite bool_decide_eq_true_2 by discriminate. apply andb_false_r. }
  pose proof (run_GCUniquePtr_ctor_raw w (Some o) c Ha) as HC. cbv zeta in HC.
  set (a := fresh (dom (counters w))) in *.
  step HC. unfold GCWeakPtr_ctor_unique. simpl unique_mpCounter.
  step (run_GCWeakPtr_ctor_from _ a
          {| count := 0; ptr := Some o; pCollector := Some c |}
          (counters_set_counters_insert w a _) Ha).
  rewrite set_counters_insert_insert.
  rewrite (GCWeakPtr_Reset_attached _ (mkGCWeakPtr (Some a)) a _ eq_refl
             (counters_set_counters_insert w a _)).
  cbv zeta. simpl. rewrite set_counters_insert_insert.
  unfold IGarbageCollector_Collect. rewrite run_bind, run_bind.
  unfold modify_world. cbv beta iota.
  set (wc := log_event _ _).
  unfold GCConcreteFactory_Collect.
  assert (factories wc !! c = Some f) as Hfc by exact Hf.
  step (run_load_factory wc c f Hfc). rewrite Hc.
  rewrite (Collect_loop_not_found wc c (Some o) (mLiveList f) 0); [reflexivity|].
  eapply Forall_impl; [exact Hall|].
  intros v Hv. apply (GCUniquePtr_op_eq_raw_frame w wc v (Some o) false Hv).
  intros x r Ex Hx. exists r. split; [|reflexivity].
  simpl. rewrite lookup_insert_ne; [exact Hx|]. intros <-. congruence.
Qed.

Lemma GCUniquePtr_outside_factory_not_collectable_witness :
  (u ← @GCUniquePtr_ctor_raw DebugBuild (Some 555%nat) (Some 7%nat);
   h ← @GCWeakPtr_ctor_unique DebugBuild u;
   @GCWeakPtr_Reset DebugBuild h) busy_store
    = Fatal (AssertionFailed MEMORY_FACTORY_NOT_OWNED_OBJECT).
Proof.
  apply (@GCUniquePtr_outside_factory_not_collectable DebugBuild busy_store 7%nat
           {| mpAllocator := Some 3%nat;
              mLiveList := [mkGCUniquePtr (Some 0%nat); mkGCUniquePtr (Some 1%nat)];
              mCleaningUp := false |} 555%nat eq_refl eq_refl).
  repeat constructor.
Defined.

(** ** The invariant of the factory *)

Lemma owned_object_Some (w : World) (this : nat) (u : GCUniquePtr) (o : nat) :
  owned_object w this u = Some o ↔
  ∃ a r, unique_mpCounter u = Some a ∧ counters w !! a = Some r ∧
         pCollector r = Some this ∧ ptr r = Some o.
Proof.
  unfold owned_object. split.
  - destruct (unique_mpCounter u) as [a|]; [|discriminate].
    destruct (counters w !! a) as [r|] eqn:Hr; [|discriminate].
    destruct (decide _) as [C|_]; [|discriminate].
    intros P. exists a, r. auto.
  - intros (a & r & -> & -> & C & P).
    destruct (decide _); [exact P|contradiction].
Qed.

Lemma owned_object_stable (w w' : World) (this : nat) (v : GCUniquePtr) (o : nat) :
  owned_object w this v = Some o →
  (∀ x r, unique_mpCounter v = Some x → counters w !! x = Some r →
          ∃ r', counters w' !! x = Some r' ∧ ptr r' = ptr r ∧
                pCollector r' = pCollector r) →
  owned_object w' this v = Some o.
Proof.
  intros Ho Hfr. apply owned_object_Some in Ho as (a & r & E & Hr & C & P).
  destruct (Hfr a r E Hr) as (r' & Hr' & P' & C').
  apply owned_object_Some. exists a, r'. repeat split; congruence.
Qed.

Lemma owned_objects_stable (w w' : World) (this : nat) (l : list GCUniquePtr) :
  Forall (λ u, is_Some (owned_object w this u)) l →
  (∀ v x r, v ∈ l → unique_mpCounter v = Some x → counters w !! x = Some r →
            ∃ r', counters w' !! x = Some r' ∧ ptr r' = ptr r ∧
                  pCollector r' = pCollector r) →
  owned_object w' this <$> l = owned_object w this <$> l.
Proof.
  intros Hall Hfr. apply Forall_fmap_ext. apply Forall_forall.
  intros v Hv. rewrite Forall_forall in Hall.
  destruct (Hall v Hv) as [o Ho]. rewrite Ho.
  apply (owned_object_stable w w' this v o Ho). intros x r. apply Hfr. exact Hv.
Qed.

Lemma Forall_is_Some_transfer {A B} (f g : A → option B) (l : list A) :
  f <$> l = g <$> l →
  Forall (λ u, is_Some (g u)) l → Forall (λ u, is_Some (f u)) l.
Proof.
  intros E Hall. apply Forall_fmap_ext in E.
  rewrite Forall_forall in *. intros x Hx. rewrite (E x Hx). apply Hall. exact Hx.
Qed.

Lemma factory_ok_stable (w w' : World) (this : nat) (f : GCConcreteFactory) :
  factories w !! this = Some f →
  factory_ok w this →
  factories w' !! this = Some f →
  (∀ v x r, v ∈ mLiveList f → unique_mpCounter v = Some x → counters w !! x = Some r →
            ∃ r', counters w' !! x = Some r' ∧ ptr r' = ptr r ∧
                  pCollector r' = pCollector r) →
  factory_ok w' this.
Proof.
  intros Hf (f0 & Hf0 & Hc & Hall & Hnd) Hf' Hfr.
  assert (f0 = f) as -> by congruence.
  pose proof (owned_objects_stable w w' this (mLiveList f) Hall Hfr) as E.
  exists f. split; [exact Hf'|]. split; [exact Hc|]. split.
  - apply (Forall_is_Some_transfer _ _ _ E Hall).
  - rewrite E. exact Hnd.
Qed.

Lemma owned_object_no_match (w : World) (this : nat) (v : GCUniquePtr) (o o' : nat) :
  owned_object w this v = Some o' → o' ≠ o →
  GCUniquePtr_op_eq_raw v (Some o) w = Ok (false, w).
Proof.
  intros Ho N. apply owned_object_Some in Ho as (a & r & E & Hr & _ & P).
  rewrite (GCUniquePtr_op_eq_raw_attached w v a r (Some o) E Hr).
  rewrite bool_decide_eq_false_2 by congruence. reflexivity.
Qed.

Lemma List_RemoveFast_last {A} (l : list A) (u : A) :
  List_RemoveFast (l ++ [u]) (length l) = Some (u, l).
Proof.
  unfold List_RemoveFast.
  rewrite list_lookup_middle by reflexivity. rewrite last_snoc.
  rewrite length_app, Nat.add_1_r.
  destruct (decide _) as [_|N]; [|contradiction].
  rewrite take_app_length. reflexivity.
Qed.

(** The reset of the last weak handle of a live entry, on any factory
    whose earlier entries hold other objects. *)
Lemma GCWeakPtr_Reset_last_handle `{BuildConfig} (w : World) (this : nat)
    (f : GCConcreteFactory) (pre post : list GCUniquePtr) (a : nat) (r : GCCounter)
    (o : nat) :
  factories w !! this = Some f →
  mCleaningUp f = false →
  mLiveList f = pre ++ mkGCUniquePtr (Some a) :: post →
  counters w !! a = Some r →
  ptr r = Some o →
  pCollector r = Some this →
  A32_decr (count r) = 0 →
  Forall (λ v, GCUniquePtr_op_eq_raw v (Some o) w = Ok (false, w)) pre →
  ∃ rest : list GCUniquePtr,
    List_RemoveFast (mLiveList f) (length pre) = Some (mkGCUniquePtr (Some a), rest) ∧
    rest ≡ₚ pre ++ post ∧
    GCWeakPtr_Reset (mkGCWeakPtr (Some a)) w
      = Ok (mkGCWeakPtr nullptr,
            {| counters := delete a (counters w);
               factories := <[this := set_mLiveList rest f]> (factories w);
               allocator := allocator w;
               trace := trace w ++ [EvCollect this (Some o); EvDestroy this (Some o);
                                    EvDeallocate (mpAllocator f) (Some o)] |}).
Proof.
  intros Hf Hc El Hr P C Z Hpre.
  rewrite (GCWeakPtr_Reset_attached w (mkGCWeakPtr (Some a)) a r eq_refl Hr).
  cbv zeta. simpl count. rewrite Z, P, C.
  destruct (decide (0 = 0)) as [_|N]; [|contradiction].
  unfold IGarbageCollector_Collect. rewrite run_bind, run_bind.
  unfold modify_world. cbv beta iota.
  set (r0 := set_count 0 r).
  set (wc := log_event _ _).
  assert (factories wc !! this = Some f) as Hfc by exact Hf.
  assert (counters wc !! a = Some r0) as Hrc by apply lookup_insert_eq.
  assert (Forall (λ v, GCUniquePtr_op_eq_raw v (Some o) wc = Ok (false, wc)) pre) as Hpre'.
  { eapply Forall_impl; [exact Hpre|]. intros v Hv.
    apply (GCUniquePtr_op_eq_raw_frame w wc v (Some o) false Hv).
    intros x rx _ Hx. destruct (decide (x = a)) as [->|Nx].
    - exists r0. split; [exact Hrc|]. assert (rx = r) as -> by congruence. reflexivity.
    - exists rx. split; [|reflexivity]. simpl. rewrite lookup_insert_ne by congruence.
      exact Hx. }
  destruct (GCConcreteFactory_Collect_found wc this f (Some o) pre post
              (mkGCUniquePtr (Some a)) Hfc Hc El Hpre') as (rest & ER & Hperm & EC).
  { rewrite (GCUniquePtr_op_eq_raw_attached wc (mkGCUniquePtr (Some a)) a r0 (Some o)
               eq_refl Hrc).
    rewrite bool_decide_eq_true_2 by exact P. reflexivity. }
  exists rest. split; [exact ER|]. split; [exact Hperm|].
  rewrite EC.
  set (wd := set_factories _ wc).
  assert (factories wd !! this = Some (set_mLiveList rest f)) as Hfd
    by apply lookup_insert_eq.
  rewrite (GCUniquePtr_dtor_attached wd (mkGCUniquePtr (Some a)) a r0 o this _
             eq_refl Hrc P C Hfd).
  unfold mret, M_ret, ret. do 2 f_equal.
  unfold set_counters, wd, wc, log_event, set_factories; simpl.
  rewrite delete_insert_eq, <- !app_assoc. reflexivity.
Qed.

(** X11. [Create] keeps the invariant of the factory: on a factory whose
    live entries each own an object, all different, and whose allocator
    hands out an object that is not among them, [Create] returns a handle
    with count 1 that resolves to the new object, appends one entry owning
    that object at the back of the live list, leaves every existing counter
    record as it was, and the invariant holds again. *)
Theorem GCConcreteFactory_Create_keeps_invariant `{BuildConfig} (w : World) (this : nat)
    (f : GCConcreteFactory) (o : nat) :
  factories w !! this = Some f →
  factory_ok w this →
  next_allocation w = Some o →
  Some o ∉ owned_object w this <$> mLiveList f →
  ∃ (h : GCWeakPtr) (w' : World) (u : GCUniquePtr),
    GCConcreteFactory_Create this w = Ok (h, w') ∧
    factory_ok w' this ∧
    GCWeakPtr_GetCount h w' = Ok (1, w') ∧
    GCWeakPtr_GetPtr h w' = Ok (Some o, w') ∧
    factories w' !! this = Some (set_mLiveList (mLiveList f ++ [u]) f) ∧
    owned_object w' this u = Some o ∧
    GCConcreteFactory_GetLiveCount this w' = Ok (S (length (mLiveList f)), w') ∧
    (∀ x, is_Some (counters w !! x) → counters w' !! x = counters w !! x).
Proof.
  intros Hf Hok Hn Hnew.
  assert (E_DEBUG && negb (bool_decide (next_allocation w ≠ nullptr)) = false) as Ha.
  { rewrite Hn, bool_decide_eq_true_2 by discriminate. apply andb_false_r. }
  pose proof (GCConcreteFactory_Create_registers w this f Hf Ha) as HC.
  cbv zeta in HC. rewrite Hn in HC.
  pose proof (fresh_counter_unused w) as Hfresh.
  set (a := fresh (dom (counters w))) in *.
  set (r := {| count := 1; ptr := Some o; pCollector := Some this |}) in *.
  set (u := mkGCUniquePtr (Some a)) in *.
  set (f' := set_mLiveList (mLiveList f ++ [u]) f) in *.
  match type of HC with _ = Ok (?h0, ?w0) => set (w' := w0) in * end.
  assert (counters w' !! a = Some r) as Hr' by apply lookup_insert_eq.
  assert (factories w' !! this = Some f') as Hf' by apply lookup_insert_eq.
  assert (∀ x, is_Some (counters w !! x) → counters w' !! x = counters w !! x) as Hold.
  { intros x [rx Hx]. simpl. apply lookup_insert_ne. intros <-. congruence. }
  assert (owned_object w' this u = Some o) as Hu.
  { apply owned_object_Some. exists a, r. auto. }
  destruct Hok as (f0 & Hf0 & Hc & Hall & Hnd).
  assert (f0 = f) as -> by congruence.
  assert (owned_object w' this <$> mLiveList f = owned_object w this <$> mLiveList f) as E.
  { apply (owned_objects_stable w w' this _ Hall).
    intros v x rx _ _ Hx. exists rx. rewrite (Hold x) by eauto. auto. }
  exists (mkGCWeakPtr (Some a)), w', u.
  split; [exact HC|]. split.
  { exists f'. split; [exact Hf'|]. split; [exact Hc|]. simpl. split.
    - apply Forall_app. split.
      + apply (Forall_is_Some_transfer _ _ _ E Hall).
      + apply Forall_singleton. rewrite Hu. eauto.
    - rewrite fmap_app, E. apply NoDup_app. split; [exact Hnd|]. split.
      + intros x Hx. simpl. rewrite Hu. intros Hin.
        apply list_elem_of_singleton in Hin. subst x. contradiction.
      + simpl. apply NoDup_singleton. }
  split; [apply (GCWeakPtr_GetCount_attached w' (mkGCWeakPtr (Some a)) a r eq_refl Hr')|].
  split; [apply (GCWeakPtr_GetPtr_attached w' (mkGCWeakPtr (Some a)) a r eq_refl Hr')|].
  split; [exact Hf'|]. split; [exact Hu|]. split; [|exact Hold].
  rewrite (GCConcreteFactory_GetLiveCount_at w' this f' Hf'). simpl.
  rewrite length_app, Nat.add_1_r. reflexivity.
Qed.

(** Closes [x ∉ l] and [x ∈ l] for explicit lists of distinct values. *)
Ltac not_listed :=
  let Hin := fresh "Hin" in
  intros Hin;
  repeat (apply elem_of_cons in Hin as [Hin|Hin]; [discriminate Hin|]);
  inversion Hin.

Lemma busy_store_ok : factory_ok busy_store 7%nat.
Proof.
  eexists. split; [reflexivity|]. split; [reflexivity|]. split.
  - repeat constructor; vm_compute; eauto.
  - vm_compute. repeat (apply NoDup_cons_2; [not_listed|]). apply NoDup_nil_2.
Qed.

Lemma GCConcreteFactory_Create_keeps_invariant_witness :
  ∃ (h : GCWeakPtr) (w' : World),
    @GCConcreteFactory_Create DebugBuild 7%nat busy_store = Ok (h, w') ∧
    factory_ok w' 7%nat ∧
    GCWeakPtr_GetPtr h w' = Ok (Some 102%nat, w') ∧
    GCConcreteFactory_GetLiveCount 7%nat w' = Ok (3%nat, w').
Proof.
  destruct (@GCConcreteFactory_Create_keeps_invariant DebugBuild busy_store 7%nat
              _ 102%nat eq_refl busy_store_ok eq_refl)
    as (h & w' & u & C & K & _ & P & _ & _ & L & _).
  - vm_compute. not_listed.
  - exists h, w'. repeat (split; [assumption|]). exact L.
Defined.

(** X12. Dropping the last weak handle of a live object keeps the
    invariant of the factory: on a factory whose live entries each own an
    object, all different, the reset of a handle that brings the count of
    the record of one entry to zero invokes [Collect] and then [Destroy]
    once each, for the object of that entry; the record is freed, the live
    count goes down by one, the other entries stay (in some order) and the
    invariant holds again. *)
Theorem GCWeakPtr_Reset_last_keeps_invariant `{BuildConfig} (w : World) (this : nat)
    (f : GCConcreteFactory) (a : nat) (r : GCCounter) (o : nat) :
  factories w !! this = Some f →
  factory_ok w this →
  mkGCUniquePtr (Some a) ∈ mLiveList f →
  counters w !! a = Some r →
  ptr r = Some o →
  A32_decr (count r) = 0 →
  ∃ (w' : World) (rest : list GCUniquePtr),
    GCWeakPtr_Reset (mkGCWeakPtr (Some a)) w = Ok (mkGCWeakPtr nullptr, w') ∧
    factory_ok w' this ∧
    factories w' !! this = Some (set_mLiveList rest f) ∧
    mkGCUniquePtr (Some a) :: rest ≡ₚ mLiveList f ∧
    GCConcreteFactory_GetLiveCount this w' = Ok (Nat.pred (length (mLiveList f)), w') ∧
    counters w' = delete a (counters w) ∧
    trace w' = trace w ++ [EvCollect this (Some o); EvDestroy this (Some o);
                           EvDeallocate (mpAllocator f) (Some o)].
Proof.
  intros Hf (f0 & Hf0 & Hc & Hall & Hnd) Hin Hr P Z.
  assert (f0 = f) as -> by congruence.
  destruct (list_elem_of_split _ _ Hin) as (pre & post & El).
  rewrite El in Hall, Hnd.
  apply Forall_app in Hall as [Hpre Hupost].
  apply Forall_cons in Hupost as [[o' Hu] Hpost].
  assert (o' = o ∧ pCollector r = Some this) as [-> C].
  { apply owned_object_Some in Hu as (a' & r' & E & Hr' & C & P').
    simpl in E. injection E as <-. assert (r' = r) as -> by congruence.
    split; congruence. }
  rewrite fmap_app, fmap_cons, Hu in Hnd.
  apply NoDup_app in Hnd as (Hnd1 & Hdisj & Hnd2).
  apply NoDup_cons in Hnd2 as [Hnotin Hnd2].
  assert (∀ v, v ∈ pre ++ post → owned_object w this v ≠ Some o) as Hother.
  { intros v Hv Ev. apply elem_of_app in Hv as [Hv|Hv].
    - apply (Hdisj (Some o)); [rewrite <- Ev; apply list_elem_of_fmap_2; exact Hv|].
      apply elem_of_cons. left. reflexivity.
    - apply Hnotin. rewrite <- Ev. apply list_elem_of_fmap_2. exact Hv. }
  assert (Forall (λ v, is_Some (owned_object w this v)) (pre ++ post)) as Hall'
    by (apply Forall_app; split; assumption).
  destruct (GCWeakPtr_Reset_last_handle w this f pre post a r o Hf Hc El Hr P C Z)
    as (rest & ER & Hperm & HR).
  { rewrite Forall_forall in Hpre |- *. intros v Hv.
    destruct (Hpre v Hv) as [ov Hov].
    apply (owned_object_no_match w this v o ov Hov). intros ->.
    apply (Hother v); [apply elem_of_app; left; exact Hv|exact Hov]. }
  match type of HR with _ = Ok (_, ?w0) => set (w' := w0) in * end.
  assert (factories w' !! this = Some (set_mLiveList rest f)) as Hf'
    by apply lookup_insert_eq.
  assert (owned_object w' this <$> (pre ++ post)
          = owned_object w this <$> (pre ++ post)) as E.
  { apply (owned_objects_stable w w' this _ Hall').
    intros v x rx Hv Ex Hx. exists rx. split; [|auto].
    simpl. rewrite lookup_delete_ne; [exact Hx|]. intros <-.
    apply (Hother v Hv). apply owned_object_Some. exists a, rx.
    assert (rx = r) as -> by congruence. auto. }
  exists w', rest. split; [exact HR|]. split.
  { exists (set_mLiveList rest f). split; [exact Hf'|]. split; [exact Hc|].
    simpl. split.
    - rewrite Hperm. apply (Forall_is_Some_transfer _ _ _ E Hall').
    - rewrite Hperm, E, fmap_app. apply NoDup_app. split; [exact Hnd1|].
      split; [|exact Hnd2].
      intros x Hx Hx'. apply (Hdisj x Hx). apply elem_of_cons. right. exact Hx'. }
  split; [exact Hf'|]. split.
  { rewrite El, Hperm. apply Permutation_middle. }
  split; [|split; reflexivity].
  rewrite (GCConcreteFactory_GetLiveCount_at w' this _ Hf'). simpl.
  rewrite Hperm, El, !length_app. simpl.
  replace (Nat.pred (length pre + S (length post))) with (length pre + length post)%nat
    by lia.
  reflexivity.
Qed.

Lemma GCWeakPtr_Reset_last_keeps_invariant_witness :
  ∃ w' : World,
    @GCWeakPtr_Reset DebugBuild (mkGCWeakPtr (Some 0%nat)) busy_store
      = Ok (mkGCWeakPtr nullptr, w') ∧
    factory_ok w' 7%nat ∧
    GCConcreteFactory_GetLiveCount 7%nat w' = Ok (1%nat, w').
Proof.
  destruct (@GCWeakPtr_Reset_last_keeps_invariant DebugBuild busy_store 7%nat _ 0%nat
              {| count := 1; ptr := Some 100%nat; pCollector := Some 7%nat |} 100%nat
              eq_refl busy_store_ok)
    as (w' & rest & R & K & _ & _ & L & _); try reflexivity.
  - simpl. apply elem_of_cons. left. reflexivity.
  - exists w'. split; [exact R|]. split; [exact K|exact L].
Defined.

Lemma factory_ok_set_count (w : World) (this a : nat) (r : GCCounter) (n : Z) :
  factory_ok w this →
  counters w !! a = Some r →
  factory_ok (set_counters <[a := set_count n r]> w) this.
Proof.
  intros Hok Hr. pose proof Hok as (f & Hf & _).
  apply (factory_ok_stable w (set_counters <[a := set_count n r]> w) this f Hf Hok Hf).
  intros v x rx _ _ Hx. simpl. destruct (decide (x = a)) as [->|N].
  - exists (set_count n r). rewrite lookup_insert_eq.
    assert (rx = r) as -> by congruence. auto.
  - exists rx. rewrite lookup_insert_ne by congruence. auto.
Qed.

(** X13. Copies and resets of weak handles that do not bring a count to
    zero never touch the live list: for a handle attached to an allocated
    record, the copy yields a handle on the same record and adds one to the
    count of that record, and, when the count stays above zero, the reset
    empties the handle and takes one from that count. In both cases the
    resulting store differs from the original one in the count of that
    record only: all other records, the factories, the allocator and the
    trace are as they were, and the invariant of every factory is kept. *)
Theorem GCWeakPtr_keeps_invariant `{BuildConfig} (w : World) (this : nat)
    (h : GCWeakPtr) (a : nat) (r : GCCounter) :
  factory_ok w this →
  weak_mpCounter h = Some a →
  counters w !! a = Some r →
  (∃ w1 : World,
     w1 = set_counters <[a := set_count (A32_incr (count r)) r]> w ∧
     GCWeakPtr_ctor_copy h w = Ok (mkGCWeakPtr (Some a), w1) ∧
     counters w1 !! a
       = Some {| count := A32_incr (count r); ptr := ptr r;
                 pCollector := pCollector r |} ∧
     (∀ x, x ≠ a → counters w1 !! x = counters w !! x) ∧
     factory_ok w1 this ∧ factories w1 = factories w ∧
     allocator w1 = allocator w ∧ trace w1 = trace w) ∧
  (A32_decr (count r) ≠ 0 →
   ∃ w1 : World,
     w1 = set_counters <[a := set_count (A32_decr (count r)) r]> w ∧
     GCWeakPtr_Reset h w = Ok (mkGCWeakPtr nullptr, w1) ∧
     counters w1 !! a
       = Some {| count := A32_decr (count r); ptr := ptr r;
                 pCollector := pCollector r |} ∧
     (∀ x, x ≠ a → counters w1 !! x = counters w !! x) ∧
     factory_ok w1 this ∧ factories w1 = factories w ∧
     allocator w1 = allocator w ∧ trace w1 = trace w).
Proof.
  intros Hok E Hr. split.
  - eexists. split; [reflexivity|].
    split; [apply (GCWeakPtr_ctor_copy_attached w h a r E Hr)|].
    split; [apply lookup_insert_eq|].
    split; [intros x N; simpl; apply lookup_insert_ne; congruence|].
    split; [apply factory_ok_set_count; assumption|]. repeat split; reflexivity.
  - intros NZ. eexists. split; [reflexivity|]. split.
    + rewrite (GCWeakPtr_Reset_attached w h a r E Hr). cbv zeta.
      destruct (decide _) as [Z|_]; [simpl in Z; contradiction|]. reflexivity.
    + split; [apply lookup_insert_eq|].
      split; [intros x N; simpl; apply lookup_insert_ne; congruence|].
      split; [apply factory_ok_set_count; assumption|]. repeat split; reflexivity.
Qed.

Lemma GCWeakPtr_keeps_invariant_witness :
  ∃ w1 w2 : World,
    GCWeakPtr_ctor_copy (mkGCWeakPtr (Some 1%nat)) busy_store
      = Ok (mkGCWeakPtr (Some 1%nat), w1) ∧
    GCWeakPtr_GetCount (mkGCWeakPtr (Some 1%nat)) w1 = Ok (3, w1) ∧
    @GCWeakPtr_Reset DebugBuild (mkGCWeakPtr (Some 1%nat)) busy_store
      = Ok (mkGCWeakPtr nullptr, w2) ∧
    GCWeakPtr_GetCount (mkGCWeakPtr (Some 1%nat)) w2 = Ok (1, w2) ∧
    factory_ok w2 7%nat ∧ factories w2 = factories busy_store.
Proof.
  destruct (@GCWeakPtr_keeps_invariant DebugBuild busy_store 7%nat
              (mkGCWeakPtr (Some 1%nat)) 1%nat
              {| count := 2; ptr := Some 101%nat; pCollector := Some 7%nat |}
              busy_store_ok eq_refl eq_refl) as [(w1 & E1 & C & _) R].
  destruct (R ltac:(discriminate)) as (w2 & E2 & R2 & _ & _ & K & F & _).
  exists w1, w2. split; [exact C|].
  split; [rewrite E1; vm_compute; reflexivity|].
  split; [exact R2|].
  split; [rewrite E2; vm_compute; reflexivity|].
  split; [exact K|exact F].
Defined.

(** ** CleanUp *)







(** ** Creation followed by release *)

(** The reset of the only handle of the entry that was appended last, in a
    store [w2] that differs from [w] by that entry and its record. *)
Lemma GCWeakPtr_Reset_new_entry `{BuildConfig} (w w2 : World) (this : nat)
    (f2 : GCConcreteFactory) (l : list GCUniquePtr) (a : nat) (r : GCCounter) (o : nat) :
  counters w !! a = None →
  counters w2 = <[a := r]> (counters w) →
  ptr r = Some o →
  pCollector r = Some this →
  A32_decr (count r) = 0 →
  factories w2 !! this = Some f2 →
  mCleaningUp f2 = false →
  mLiveList f2 = l ++ [mkGCUniquePtr (Some a)] →
  Forall (λ v, GCUniquePtr_op_eq_raw v (Some o) w = Ok (false, w)) l →
  GCWeakPtr_Reset (mkGCWeakPtr (Some a)) w2
    = Ok (mkGCWeakPtr nullptr,
          {| counters := counters w;
             factories := <[this := set_mLiveList l f2]> (factories w2);
             allocator := allocator w2;
             trace := trace w2 ++ [EvCollect this (Some o); EvDestroy this (Some o);
                                   EvDeallocate (mpAllocator f2) (Some o)] |}).
Proof.
  intros Hfresh Ec P C Z Hf2 Hc El Hall.
  assert (counters w2 !! a = Some r) as Hr by (rewrite Ec; apply lookup_insert_eq).
  destruct (GCWeakPtr_Reset_last_handle w2 this f2 l [] a r o Hf2 Hc El Hr P C Z)
    as (rest & ER & _ & HR).
  { eapply Forall_impl; [exact Hall|]. intros v Hv.
    apply (GCUniquePtr_op_eq_raw_frame w w2 v (Some o) false Hv).
    intros x rx _ Hx. exists rx. split; [|reflexivity].
    rewrite Ec, lookup_insert_ne; [exact Hx|]. intros <-. congruence. }
  rewrite El, List_RemoveFast_last in ER. injection ER as <-.
  rewrite HR. do 3 f_equal. rewrite Ec. apply delete_insert_id. exact Hfresh.
Qed.

Lemma run_GCConcreteFactory_SetAllocator (w : World) (this : nat) (f : GCConcreteFactory)
    (p : pointer) :
  factories w !! this = Some f →
  GCConcreteFactory_SetAllocator this p w
    = Ok (tt, set_factories <[this := set_mpAllocator p f]> w).
Proof.
  intros Hf. unfold GCConcreteFactory_SetAllocator.
  step (run_load_factory w this f Hf). reflexivity.
Qed.

(** X16. [Destroy] releases an object through the allocator that is set
    when the object dies, not through the one that allocated it: when
    [SetAllocator] is called between [Create] and the reset of the only
    handle, the object is allocated with the old allocator and deallocated
    with the new one. Apart from the allocator and the trace, the store is
    back where it started. *)
Theorem GCConcreteFactory_SetAllocator_changes_Destroy `{BuildConfig} (w : World)
    (this : nat) (f : GCConcreteFactory) (o : nat) (pNew : pointer) :
  factories w !! this = Some f →
  mCleaningUp f = false →
  next_allocation w = Some o →
  Forall (λ v, GCUniquePtr_op_eq_raw v (Some o) w = Ok (false, w)) (mLiveList f) →
  (h ← GCConcreteFactory_Create this;
   GCConcreteFactory_SetAllocator this pNew;;
   GCWeakPtr_Reset h) w
    = Ok (mkGCWeakPtr nullptr,
          {| counters := counters w;
             factories := <[this := set_mpAllocator pNew f]> (factories w);
             allocator := tail (allocator w);
             trace := trace w ++ [EvAllocate (mpAllocator f) (Some o);
                                  EvCollect this (Some o); EvDestroy this (Some o);
                                  EvDeallocate pNew (Some o)] |}).
Proof.
  intros Hf Hc Hn Hall.
  assert (E_DEBUG && negb (bool_decide (next_allocation w ≠ nullptr)) = false) as Ha.
  { rewrite Hn, bool_decide_eq_true_2 by discriminate. apply andb_false_r. }
  pose proof (GCConcreteFactory_Create_registers w this f Hf Ha) as HC.
  cbv zeta in HC. rewrite Hn in HC.
  pose proof (fresh_counter_unused w) as Hfresh.
  set (a := fresh (dom (counters w))) in *.
  step HC.
  step (run_GCConcreteFactory_SetAllocator _ this _ pNew (lookup_insert_eq _ _ _)).
  set (w2 := set_factories _ _).
  rewrite (GCWeakPtr_Reset_new_entry w w2 this _ (mLiveList f) a
             {| count := 1; ptr := Some o; pCollector := Some this |} o Hfresh eq_refl
             eq_refl eq_refl eq_refl (lookup_insert_eq _ _ _) Hc eq_refl Hall).
  do 2 f_equal. unfold w2. simpl. rewrite !insert_insert_eq, <- app_assoc.
  destruct f. reflexivity.
Qed.

Lemma GCConcreteFactory_SetAllocator_changes_Destroy_witness :
  ∃ w' : World,
    (h ← @GCConcreteFactory_Create DebugBuild 7%nat;
     GCConcreteFactory_SetAllocator 7%nat (Some 4%nat);;
     @GCWeakPtr_Reset DebugBuild h) busy_store = Ok (mkGCWeakPtr nullptr, w') ∧
    trace w' = [EvAllocate (Some 3%nat) (Some 102%nat); EvCollect 7 (Some 102%nat);
                EvDestroy 7 (Some 102%nat); EvDeallocate (Some 4%nat) (Some 102%nat)].
Proof.
  eexists. split.
  - apply (@GCConcreteFactory_SetAllocator_changes_Destroy DebugBuild busy_store 7%nat
             _ 102%nat (Some 4%nat) eq_refl eq_refl eq_refl).
    repeat constructor.
  - reflexivity.
Defined.

Lemma GCWeakPtr_op_arrow_live `{BuildConfig} (w : World) (h : GCWeakPtr) (a : nat)
    (r : GCCounter) (o : nat) :
  weak_mpCounter h = Some a →
  counters w !! a = Some r →
  ptr r = Some o →
  GCWeakPtr_op_arrow h w = Ok (Some o, w).
Proof.
  intros E Hr P. unfold GCWeakPtr_op_arrow. rewrite E.
  assert ((r0 ← load_counter (Some a); mret (bool_decide (ptr r0 ≠ nullptr))) w
          = Ok (true, w)) as Hvalid.
  { step (run_load_counter w a r Hr). rewrite P.
    rewrite bool_decide_eq_true_2 by discriminate. reflexivity. }
  step Hvalid. step (run_E_ASSERT_holds GARBAGE_COLLECTION_REFERENCE_INVALID w).
  step (run_load_counter w a r Hr). rewrite P. reflexivity.
Qed.

(** X17. The resource creators of [DX11Device] leave the factory clean
    when initialisation fails. On a factory outside [CleanUp] whose live
    entries hold other objects than the one the allocator hands out:
    when [Initialize] answers true, [CreateBlendState] returns exactly what
    [Create] returns (a handle with count 1 on a new live entry); when it
    answers false, the handle is reset, which collects and destroys the new
    object at once, an empty handle is returned, and counter records and
    factory are as before the call. [CreateBuffer] does not look at the
    answer and always behaves like the first case. *)
Theorem DX11Device_CreateBlendState_spec `{BuildConfig} (w : World) (this : nat)
    (f : GCConcreteFactory) (o : nat) :
  factories w !! this = Some f →
  mCleaningUp f = false →
  next_allocation w = Some o →
  Forall (λ v, GCUniquePtr_op_eq_raw v (Some o) w = Ok (false, w)) (mLiveList f) →
  DX11Device_CreateBlendState this true w = GCConcreteFactory_Create this w ∧
  DX11Device_CreateBuffer this w = GCConcreteFactory_Create this w ∧
  (∃ (h : GCWeakPtr) (w1 : World),
     GCConcreteFactory_Create this w = Ok (h, w1) ∧
     GCWeakPtr_GetCount h w1 = Ok (1, w1) ∧
     GCConcreteFactory_GetLiveCount this w1 = Ok (S (length (mLiveList f)), w1)) ∧
  DX11Device_CreateBlendState this false w
    = Ok (mkGCWeakPtr nullptr,
          {| counters := counters w;
             factories := factories w;
             allocator := tail (allocator w);
             trace := trace w ++ [EvAllocate (mpAllocator f) (Some o);
                                  EvCollect this (Some o); EvDestroy this (Some o);
                                  EvDeallocate (mpAllocator f) (Some o)] |}).
Proof.
  intros Hf Hc Hn Hall.
  assert (E_DEBUG && negb (bool_decide (next_allocation w ≠ nullptr)) = false) as Ha.
  { rewrite Hn, bool_decide_eq_true_2 by discriminate. apply andb_false_r. }
  pose proof (GCConcreteFactory_Create_registers w this f Hf Ha) as HC.
  cbv zeta in HC. rewrite Hn in HC.
  pose proof (fresh_counter_unused w) as Hfresh.
  set (a := fresh (dom (counters w))) in *.
  set (r := {| count := 1; ptr := Some o; pCollector := Some this |}) in *.
  set (h := mkGCWeakPtr (Some a)) in *.
  match type of HC with _ = Ok (_, ?w0) => set (w1 := w0) in * end.
  assert (counters w1 !! a = Some r) as Hr by apply lookup_insert_eq.
  assert ((if E_DEBUG then GCConcreteFactory_GetLiveCount this;; mret tt else mret tt) w
          = Ok (tt, w)) as Hmsg.
  { destruct E_DEBUG; [|reflexivity].
    step (GCConcreteFactory_GetLiveCount_at w this f Hf). reflexivity. }
  assert (E_DEBUG && negb (bool_decide (ptr r ≠ nullptr)) = false) as Har.
  { simpl ptr. rewrite bool_decide_eq_true_2 by discriminate. apply andb_false_r. }
  assert ((result ← GCWeakPtr_ctor_from (weak_mpCounter h);
           GCWeakPtr_dtor h;; mret result) w1 = Ok (h, w1)) as Hret.
  { simpl weak_mpCounter. step (run_GCWeakPtr_ctor_from w1 a r Hr Har).
    step (run_GCWeakPtr_dtor _ _ _ _
            (GCWeakPtr_copy_then_Reset w1 a r Hr ltac:(vm_compute; split; reflexivity))).
    reflexivity. }
  split; [|split; [|split]].
  - unfold DX11Device_CreateBlendState. step Hmsg. step HC.
    step (GCWeakPtr_op_arrow_live w1 h a r o eq_refl Hr eq_refl).
    simpl negb. cbv iota.
    rewrite (run_bind_Ok _ _ _ _ _ (eq_refl : ret h w1 = Ok (h, w1))).
    rewrite Hret. symmetry. exact HC.
  - unfold DX11Device_CreateBuffer. step Hmsg. step HC.
    step (GCWeakPtr_op_arrow_live w1 h a r o eq_refl Hr eq_refl).
    rewrite Hret. symmetry. exact HC.
  - exists h, w1. split; [exact HC|].
    split; [apply (GCWeakPtr_GetCount_attached w1 h a r eq_refl Hr)|].
    rewrite (GCConcreteFactory_GetLiveCount_at w1 this _ (lookup_insert_eq _ _ _)).
    simpl. rewrite length_app, Nat.add_1_r. reflexivity.
  - unfold DX11Device_CreateBlendState. step Hmsg. step HC.
    step (GCWeakPtr_op_arrow_live w1 h a r o eq_refl Hr eq_refl).
    simpl negb. cbv iota.
    unfold GCWeakPtr_op_assign_raw.
    rewrite bool_decide_eq_true_2 by reflexivity.
    rewrite run_bind, run_bind, run_E_ASSERT_holds.
    destruct (decide (nullptr = nullptr)) as [_|N]; [|contradiction].
    rewrite (GCWeakPtr_Reset_new_entry w w1 this _ (mLiveList f) a r o Hfresh eq_refl
               eq_refl eq_refl eq_refl (lookup_insert_eq _ _ _) Hc eq_refl Hall).
    simpl. unfold mret, M_ret, ret. do 2 f_equal.
    rewrite insert_insert_eq, <- app_assoc.
    replace (set_mLiveList (mLiveList f)
               (set_mLiveList (mLiveList f ++ [mkGCUniquePtr (Some a)]) f)) with f
      by (destruct f; reflexivity).
    rewrite (insert_id _ _ _ Hf). reflexivity.
Qed.

Lemma DX11Device_CreateBlendState_spec_witness :
  ∃ w' : World,
    @DX11Device_CreateBlendState DebugBuild 7%nat false busy_store
      = Ok (mkGCWeakPtr nullptr, w') ∧
    counters w' = counters busy_store ∧
    factories w' = factories busy_store ∧
    count_events is_Destroy (trace w') = 1%nat.
Proof.
  destruct (@DX11Device_CreateBlendState_spec DebugBuild busy_store 7%nat _ 102%nat
              eq_refl eq_refl eq_refl) as (_ & _ & _ & R).
  - repeat constructor.
  - eexists. split; [exact R|]. repeat split; reflexivity.
Defined.

(** X18. Without assertions a failed allocation leaves a dangling live
    entry behind. In a build with [E_DEBUG] off, when the allocator answers
    with a null pointer on an empty factory, [Create] registers an entry
    for the null object; the reset of the returned handle then finds the
    count at zero and the object pointer null and frees the record, without
    taking the entry out of the live list (the live count stays 1); the
    next [CleanUp] reads the freed record through that entry. *)
Theorem GCConcreteFactory_Create_null_dangles `{BuildConfig} (w : World) (this : nat)
    (f : GCConcreteFactory) :
  E_DEBUG = false →
  factories w !! this = Some f →
  mLiveList f = [] →
  next_allocation w = nullptr →
  ∃ (h : GCWeakPtr) (w1 w2 : World),
    GCConcreteFactory_Create this w = Ok (h, w1) ∧
    GCWeakPtr_Reset h w1 = Ok (mkGCWeakPtr nullptr, w2) ∧
    counters w2 = counters w ∧
    trace w2 = trace w ++ [EvAllocate (mpAllocator f) nullptr] ∧
    GCConcreteFactory_GetLiveCount this w2 = Ok (1%nat, w2) ∧
    GCConcreteFactory_CleanUp this w2 = Fatal DanglingPointer.
Proof.
  intros D Hf El Hn.
  assert (E_DEBUG && negb (bool_decide (next_allocation w ≠ nullptr)) = false) as Ha
    by (rewrite D; reflexivity).
  pose proof (GCConcreteFactory_Create_registers w this f Hf Ha) as HC.
  cbv zeta in HC. rewrite Hn, El in HC. simpl app in HC.
  pose proof (fresh_counter_unused w) as Hfresh.
  set (a := fresh (dom (counters w))) in *.
  set (r := {| count := 1; ptr := nullptr; pCollector := Some this |}) in *.
  set (f1 := set_mLiveList [mkGCUniquePtr (Some a)] f) in *.
  match type of HC with _ = Ok (_, ?w0) => set (w1 := w0) in * end.
  assert (counters w1 !! a = Some r) as Hr by apply lookup_insert_eq.
  pose proof (GCWeakPtr_Reset_attached w1 (mkGCWeakPtr (Some a)) a r eq_refl Hr) as HR.
  cbv zeta in HR. simpl in HR.
  match type of HR with _ = Ok (_, ?w0) => set (w2 := w0) in * end.
  assert (factories w2 !! this = Some f1) as Hf2 by apply lookup_insert_eq.
  exists (mkGCWeakPtr (Some a)), w1, w2.
  split; [exact HC|]. split; [exact HR|].
  split; [simpl; apply delete_insert_id; exact Hfresh|].
  split; [reflexivity|].
  split; [apply (GCConcreteFactory_GetLiveCount_at w2 this f1 Hf2)|].
  unfold GCConcreteFactory_CleanUp.
  step (run_load_factory w2 this f1 Hf2).
  step (run_store_factory w2 this (set_mCleaningUp true f1)).
  rewrite run_bind. simpl mLiveList. simpl mLiveList_Clear_elements.
  unfold GCUniquePtr_dtor, GCUniquePtr_Reset. cbn [unique_mpCounter].
  rewrite !run_bind. unfold load_counter at 1. simpl counters.
  rewrite delete_insert_eq, (delete_id _ _ Hfresh), Hfresh. reflexivity.
Qed.

Lemma GCConcreteFactory_Create_null_dangles_witness :
  ∃ (h : GCWeakPtr) (w1 w2 : World),
    @GCConcreteFactory_Create ReleaseBuild 7%nat exhausted_store = Ok (h, w1) ∧
    @GCWeakPtr_Reset ReleaseBuild h w1 = Ok (mkGCWeakPtr nullptr, w2) ∧
    GCConcreteFactory_GetLiveCount 7%nat w2 = Ok (1%nat, w2) ∧
    @GCConcreteFactory_CleanUp ReleaseBuild 7%nat w2 = Fatal DanglingPointer.
Proof.
  destruct (@GCConcreteFactory_Create_null_dangles ReleaseBuild exhausted_store 7%nat
              _ eq_refl eq_refl eq_refl eq_refl)
    as (h & w1 & w2 & C & R & _ & _ & L & K).
  exists h, w1, w2. split; [exact C|]. split; [exact R|]. split; [exact L|exact K].
Defined.
